(** * Heat map engine (Heatmap_engine.js): embedding and verified properties

    The engine is the JavaScript class [HeatMapEngine]: a session object
    [this.data] that [addPoint] mutates and the [get*] views read.  The
    embedding passes the session state explicitly: a view is a function of
    a [Data], and [addPoint] returns the [Data] it leaves together with the
    point it returns.

    Numbers.  A JavaScript number is an IEEE-754 double.  The embedding
    keeps the special values the engine can produce and branch on ([NaN],
    [+Infinity], [-Infinity]) and holds every finite value as an exact
    rational: the rounding error of [+ - * /] and the overflow of a finite
    result to an infinity are not modelled, and [-0] is
    identified with [0] (the engine never divides by a negative zero, and
    [===], [<] and [||] do not tell the two apart).  The results of the
    arithmetic operations are kept in lowest terms, so two finite results
    are equal as terms exactly when they are [===].

    Layout: the JavaScript values, the session state and [addPoint], the
    views, the vocabulary of the statements, then the properties. *)

From Stdlib Require Import QArith Qabs Qround Qreduction ZArith Lia Lqa Sorted.
From stdpp Require Import base list.

Open Scope Z_scope.

(** ** JavaScript values and number operations *)

Module JS.

Inductive num : Type :=
  | NaN
  | PInf
  | NInf
  | Fin (q : Q).

(** The values the engine's fields and arguments hold: a number, a missing
    argument ([undefined]) or the [null] that [lastVisit] starts with. *)
Inductive value : Type :=
  | Undefined
  | Null
  | Num (n : num).

Definition of_Z (k : Z) : num := Fin (inject_Z k).

(** ToNumber *)
Definition ToNumber (v : value) : num :=
  match v with
  | Undefined => NaN
  | Null => of_Z 0
  | Num n => n
  end.

(** Sign of a finite value: [Lt], [Eq] or [Gt] against zero. *)
Definition sgn (q : Q) : comparison := (0 ?= q)%Q.

Definition is_zero (q : Q) : bool := Qeq_bool q 0.

(** ToBoolean on numbers: [0] and [NaN] are falsy. *)
Definition truthy_num (n : num) : bool :=
  match n with
  | NaN => false
  | Fin q => negb (is_zero q)
  | _ => true
  end.

Definition truthy (v : value) : bool :=
  match v with
  | Num n => truthy_num n
  | _ => false
  end.

(** [v || 0] *)
Definition or_zero (v : value) : num :=
  if truthy v then ToNumber v else of_Z 0.

Definition neg (a : num) : num :=
  match a with
  | NaN => NaN
  | PInf => NInf
  | NInf => PInf
  | Fin q => Fin (Qred (- q))
  end.

Definition add (a b : num) : num :=
  match a, b with
  | NaN, _ | _, NaN => NaN
  | PInf, NInf | NInf, PInf => NaN
  | PInf, _ | _, PInf => PInf
  | NInf, _ | _, NInf => NInf
  | Fin p, Fin q => Fin (Qred (p + q))
  end.

Definition sub (a b : num) : num :=
  match a, b with
  | NaN, _ | _, NaN => NaN
  | PInf, PInf | NInf, NInf => NaN
  | PInf, _ | _, NInf => PInf
  | NInf, _ | _, PInf => NInf
  | Fin p, Fin q => Fin (Qred (p - q))
  end.

(** An infinity scaled by a finite factor. *)
Definition scale_inf (positive : bool) (q : Q) : num :=
  match sgn q with
  | Eq => NaN
  | Lt => if positive then PInf else NInf
  | Gt => if positive then NInf else PInf
  end.

Definition mul (a b : num) : num :=
  match a, b with
  | NaN, _ | _, NaN => NaN
  | PInf, PInf | NInf, NInf => PInf
  | PInf, NInf | NInf, PInf => NInf
  | PInf, Fin q | Fin q, PInf => scale_inf true q
  | NInf, Fin q | Fin q, NInf => scale_inf false q
  | Fin p, Fin q => Fin (Qred (p * q))
  end.

(** Division; a zero divisor is the positive zero. *)
Definition div (a b : num) : num :=
  match a, b with
  | NaN, _ | _, NaN => NaN
  | Fin _, PInf | Fin _, NInf => of_Z 0
  | Fin p, Fin q =>
      if is_zero q then
        match sgn p with
        | Eq => NaN
        | Lt => PInf
        | Gt => NInf
        end
      else Fin (Qred (p / q))
  | PInf, Fin q => match sgn q with Gt => NInf | _ => PInf end
  | NInf, Fin q => match sgn q with Gt => PInf | _ => NInf end
  | _, _ => NaN
  end.

(** [a < b]; false as soon as one side is [NaN]. *)
Definition lt (a b : num) : bool :=
  match a, b with
  | NaN, _ | _, NaN => false
  | _, NInf => false
  | NInf, _ => true
  | PInf, _ => false
  | _, PInf => true
  | Fin p, Fin q => match (p ?= q)%Q with Lt => true | _ => false end
  end.

Definition gt (a b : num) : bool := lt b a.

(** [a <= b]; false as soon as one side is [NaN]. *)
Definition le (a b : num) : bool :=
  match a, b with
  | NaN, _ | _, NaN => false
  | NInf, _ => true
  | _, PInf => true
  | _, NInf => false
  | PInf, _ => false
  | Fin p, Fin q => match (p ?= q)%Q with Gt => false | _ => true end
  end.

Definition ge (a b : num) : bool := le b a.

(** [a === b] on numbers: [NaN] equals nothing, itself included. *)
Definition strict_eq (a b : num) : bool :=
  match a, b with
  | PInf, PInf | NInf, NInf => true
  | Fin p, Fin q => Qeq_bool p q
  | _, _ => false
  end.

(** SameValue on numbers ([Object.is]): as [===], except that [NaN] is the
    same value as [NaN]. *)
Definition same_value (a b : num) : bool :=
  match a, b with
  | NaN, NaN => true
  | _, _ => strict_eq a b
  end.

Definition Math_abs (a : num) : num :=
  match a with
  | NaN => NaN
  | PInf | NInf => PInf
  | Fin q => Fin (Qred (Qabs q))
  end.

(** [Math.round]: the nearest integer, a tie going up: floor(x + 1/2). *)
Definition Math_round (a : num) : num :=
  match a with
  | Fin q => of_Z (Qfloor (q + (1 # 2)))
  | _ => a
  end.

Definition Math_min (a b : num) : num :=
  match a, b with
  | NaN, _ | _, NaN => NaN
  | _, _ => if lt b a then b else a
  end.

Definition Math_max (a b : num) : num :=
  match a, b with
  | NaN, _ | _, NaN => NaN
  | _, _ => if lt a b then b else a
  end.

(** [Math.max(...xs)]: [-Infinity] for no argument. *)
Definition Math_max_spread (xs : list num) : num :=
  fold_left Math_max xs NInf.

(** [Math.sqrt].  The root of a finite value is rounded down to 2^-52 of
    its denominator's unit (exact on squares of rationals); the double's
    own rounding is not modelled. *)
Definition Qsqrt (q : Q) : Q :=
  let n := Qnum q in
  let d := Zpos (Qden q) in
  Qred (Qmake (Z.sqrt (n * d * 2 ^ 104)) (Z.to_pos (d * 2 ^ 52))).

Definition Math_sqrt (a : num) : num :=
  match a with
  | NaN | NInf => NaN
  | PInf => PInf
  | Fin q => match sgn q with
             | Gt => NaN
             | _ => Fin (Qsqrt q)
             end
  end.

(** The array index a number names as a property key, if any: [o[n]] finds
    the own property ["k"] exactly when [n] is the non-negative integer
    [k]. *)
Definition array_index (n : num) : option nat :=
  match n with
  | Fin q =>
      if Qeq_bool q (inject_Z (Qfloor q)) && (0 <=? Qfloor q)
      then Some (Z.to_nat (Qfloor q))
      else None
  | _ => None
  end.

End JS.

Abbreviation NaN := JS.NaN.
Abbreviation PInf := JS.PInf.
Abbreviation NInf := JS.NInf.
Abbreviation Fin := JS.Fin.
Abbreviation Undefined := JS.Undefined.
Abbreviation Null := JS.Null.
Abbreviation Num := JS.Num.

Declare Scope js_scope.
Delimit Scope js_scope with js.
Bind Scope js_scope with JS.num.
Notation "a + b" := (JS.add a b) : js_scope.
Notation "a - b" := (JS.sub a b) : js_scope.
Notation "a * b" := (JS.mul a b) : js_scope.
Notation "a / b" := (JS.div a b) : js_scope.
Notation "a <? b" := (JS.lt a b) : js_scope.
Notation "a >? b" := (JS.gt a b) : js_scope.
Notation "a <=? b" := (JS.le a b) : js_scope.
Notation "a >=? b" := (JS.ge a b) : js_scope.
Notation "a === b" := (JS.strict_eq a b) (at level 70, no associativity) : js_scope.
Notation "a !== b" := (negb (JS.strict_eq a b)) (at level 70, no associativity) : js_scope.

(** Integer literals of the source. *)
Coercion JS.of_Z : Z >-> JS.num.

(** ** The session state *)

(** One element of [data.points]. *)
Record Point : Type := mkPoint {
  p_x : JS.num;
  p_y : JS.num;
  p_z : JS.num;
  p_timestamp : JS.value;
  p_magnitude : JS.num;
}.

(** One element of [data.trajectory]. *)
Record Visit : Type := mkVisit {
  v_floor : JS.num;
  v_timestamp : JS.value;
  v_duration : JS.num;
}.

(** [this.data].  The fields [floors], [startTime] and [endTime] are set by
    the constructor and by [reset] and touched by no method; they are left
    out. *)
Record Data : Type := mkData {
  points : list Point;
  duration : JS.num;
  currentFloor : JS.num;
  trajectory : list Visit;
}.

(** The constants the constructor sets. *)
Definition FLOOR_HEIGHT : JS.num := 3.
Definition CAR_WIDTH : JS.num := Fin (3 # 2).
Definition CAR_DEPTH : JS.num := Fin (3 # 2).
Definition VERTICAL_THRESHOLD : JS.num := Fin (1 # 2).
Definition FLOOR_TRANSITION_TIME : JS.num := 500.

(** [this.data] as the constructor and [reset] set it. *)
Definition empty : Data :=
  {| points := []; duration := 0; currentFloor := 0; trajectory := [] |}.

Definition reset (d : Data) : Data := empty.

(** ** Ingestion *)

(** [Math.abs] and [>] take their argument through ToNumber, which is what
    the [let] on [z] stands for. *)
Definition detectFloor (d : Data) (z : JS.value) : JS.num :=
  let z := JS.ToNumber z in
  if (JS.Math_abs z <? VERTICAL_THRESHOLD)%js then currentFloor d
  else
    let verticalDistance := (JS.Math_abs z * FLOOR_TRANSITION_TIME / 1000)%js in
    let floorChange := JS.Math_round (verticalDistance / FLOOR_HEIGHT)%js in
    if (z >? 0)%js
    then JS.Math_min (currentFloor d + floorChange)%js 12
    else JS.Math_max (currentFloor d - floorChange)%js 0.

(** [addPoint] gives the session state it leaves and the point it returns.
    The products [x*x], [y*y], [z*z] take the raw arguments through
    ToNumber; [d1] is the state after [points.push(point)]. *)
Definition addPoint (d : Data) (x y z timestamp : JS.value) : Data * Point :=
  let nx := JS.ToNumber x in
  let ny := JS.ToNumber y in
  let nz := JS.ToNumber z in
  let point :=
    {| p_x := JS.or_zero x;
       p_y := JS.or_zero y;
       p_z := JS.or_zero z;
       p_timestamp := timestamp;
       p_magnitude := JS.Math_sqrt (nx * nx + ny * ny + nz * nz)%js |} in
  let d1 :=
    {| points := points d ++ [point];
       duration := duration d;
       currentFloor := currentFloor d;
       trajectory := trajectory d |} in
  let detectedFloor := detectFloor d1 z in
  let d2 :=
    if (detectedFloor !== currentFloor d1)%js
    then
      {| points := points d1;
         duration := duration d1;
         currentFloor := detectedFloor;
         trajectory := trajectory d1 ++
           [ {| v_floor := detectedFloor;
                v_timestamp := timestamp;
                v_duration := 0 |} ] |}
    else d1 in
  (d2, point).

(** One [addPoint] call of a caller. *)
Record Call : Type := mkCall {
  c_x : JS.value;
  c_y : JS.value;
  c_z : JS.value;
  c_timestamp : JS.value;
}.

Definition feed (d : Data) (c : Call) : Data :=
  fst (addPoint d (c_x c) (c_y c) (c_z c) (c_timestamp c)).

(** The session after a sequence of [addPoint] calls. *)
Definition run (calls : list Call) (d : Data) : Data :=
  fold_left feed calls d.

(** ** Views *)

(** An element of [getFloorHeatmap]'s result: the point's own fields
    ([...p]) and the three derived ones. *)
Record HeatPoint : Type := mkHeatPoint {
  hp_point : Point;
  hp_normalizedX : JS.num;
  hp_normalizedY : JS.num;
  hp_intensity : JS.num;
}.

Definition getFloorHeatmap (d : Data) (floor : JS.num) : list HeatPoint :=
  let floorPoints :=
    List.filter
      (fun p => let detectedFloor := detectFloor d (Num (p_z p)) in
                (detectedFloor === floor)%js)
      (points d) in
  if (length floorPoints =? 0)%nat then []
  else
    let maxAccel :=
      JS.Math_max_spread
        (map (fun p => JS.Math_max (JS.Math_abs (p_x p)) (JS.Math_abs (p_y p)))
             floorPoints) in
    map (fun p =>
           {| hp_point := p;
              hp_normalizedX :=
                ((p_x p / maxAccel) * (CAR_WIDTH / 2) + (CAR_WIDTH / 2))%js;
              hp_normalizedY :=
                ((p_y p / maxAccel) * (CAR_DEPTH / 2) + (CAR_DEPTH / 2))%js;
              hp_intensity := JS.Math_min (p_magnitude p / 2)%js 1 |})
        floorPoints.

(** The three shapes of [getFloorName]'s string: ['Car Top (Machine Room)'],
    the template [`Floor ${floor}`] with the number it prints, and
    ['Unknown']. *)
Inductive FloorName : Type :=
  | CarTop
  | FloorN (floor : JS.num)
  | Unknown.

Definition getFloorName (floor : JS.num) : FloorName :=
  if (floor === 0)%js then CarTop
  else if (floor >=? 1)%js && (floor <=? 12)%js then FloorN floor
  else Unknown.

(** A value of the object [getVerticalHeatmap] returns.  [visits] counts
    list elements and is a natural number. *)
Record FloorStats : Type := mkFloorStats {
  fs_floor : JS.num;
  fs_floorName : FloorName;
  fs_duration : JS.num;
  fs_visits : nat;
  fs_lastVisit : JS.value;
}.

(** [floorVisits] has the keys 0 to 12, created in ascending order; it is
    held as the list of its values by key, which is also the order
    [Object.values] lists them in. *)
Definition floorVisits_init : list FloorStats :=
  map (fun i : nat =>
         {| fs_floor := Z.of_nat i;
            fs_floorName := getFloorName (Z.of_nat i);
            fs_duration := 0;
            fs_visits := 0;
            fs_lastVisit := Null |})
      (seq 0 13).

(** The body of the [forEach] callback of [getVerticalHeatmap]. *)
Definition count_visit (traj : list Visit) (floorVisits : list FloorStats)
    (index : nat) (visit : Visit) : list FloorStats :=
  match JS.array_index (v_floor visit) with
  | None => floorVisits
  | Some k =>
      match floorVisits !! k with
      | None => floorVisits
      | Some _ =>
          let fv1 :=
            alter (fun s =>
                     {| fs_floor := fs_floor s;
                        fs_floorName := fs_floorName s;
                        fs_duration := fs_duration s;
                        fs_visits := S (fs_visits s);
                        fs_lastVisit := v_timestamp visit |})
                  k floorVisits in
          if (index <? length traj - 1)%nat then
            match traj !! (index + 1)%nat with
            | None => fv1
            | Some nextVisit =>
                alter (fun s =>
                         {| fs_floor := fs_floor s;
                            fs_floorName := fs_floorName s;
                            fs_duration :=
                              (fs_duration s +
                               (JS.ToNumber (v_timestamp nextVisit) -
                                JS.ToNumber (v_timestamp visit)) / 1000)%js;
                            fs_visits := fs_visits s;
                            fs_lastVisit := fs_lastVisit s |})
                      k fv1
            end
          else fv1
      end
  end.

(** [xs.forEach((x, index) => ...)] threading the object the callback
    updates. *)
Fixpoint forEach_from {A S : Type} (f : S -> nat -> A -> S) (index : nat)
    (xs : list A) (s : S) : S :=
  match xs with
  | [] => s
  | x :: xs' => forEach_from f (index + 1) xs' (f s index x)
  end.

Definition getVerticalHeatmap (d : Data) : list FloorStats :=
  forEach_from (count_visit (trajectory d)) 0 (trajectory d) floorVisits_init.

(** [Array.prototype.sort(comparefn)]: a stable sort (ECMAScript 2019); an
    element moves behind another only when [comparefn] of the two is
    positive, a [NaN] result counting as 0. *)
Fixpoint sort_insert {A : Type} (comparefn : A -> A -> JS.num) (x : A)
    (sorted : list A) : list A :=
  match sorted with
  | [] => [x]
  | y :: rest =>
      if (comparefn x y >? 0)%js then y :: sort_insert comparefn x rest
      else x :: sorted
  end.

Definition Array_sort {A : Type} (comparefn : A -> A -> JS.num)
    (xs : list A) : list A :=
  foldr (sort_insert comparefn) [] xs.

Definition getWorkflowAnalysis (d : Data) : list FloorStats :=
  let analysis :=
    Array_sort (fun a b => (fs_duration b - fs_duration a)%js)
      (List.filter (fun f => (fs_duration f >? 0)%js) (getVerticalHeatmap d)) in
  analysis.

(** An element of [getPath]'s result.  [order] counts list elements and is
    a natural number; [time] holds the timestamp that
    [new Date(...).toLocaleTimeString()] prints, the locale's rendering
    being outside the embedding. *)
Record PathStep : Type := mkPathStep {
  ps_order : nat;
  ps_floor : JS.num;
  ps_floorName : FloorName;
  ps_time : JS.value;
  ps_duration : JS.num;
}.

Definition getPath (d : Data) : list PathStep :=
  imap (fun index visit =>
          let nextVisit := trajectory d !! (index + 1)%nat in
          let duration :=
            match nextVisit with
            | Some nextVisit =>
                ((JS.ToNumber (v_timestamp nextVisit) -
                  JS.ToNumber (v_timestamp visit)) / 1000)%js
            | None => JS.of_Z 0
            end in
          {| ps_order := index + 1;
             ps_floor := v_floor visit;
             ps_floorName := getFloorName (v_floor visit);
             ps_time := v_timestamp visit;
             ps_duration := JS.Math_round duration |})
       (trajectory d).

(** ** Summary *)

(** [xs[i]] for an integer [i]: [undefined] below 0 and past the end. *)
Definition at_index {A : Type} (xs : list A) (i : Z) : option A :=
  if (i <? 0)%Z then None else xs !! Z.to_nat i.

(** [visit?.floor || 0] *)
Definition floor_or_zero (visit : option Visit) : JS.num :=
  match visit with
  | Some v => JS.or_zero (Num (v_floor v))
  | None => JS.or_zero Undefined
  end.

(** [new Set(xs)]: the values of [xs] in order of first occurrence, two
    numbers being one member when they are the same value ([NaN] is one
    member however often it occurs). *)
Definition Set_add (seen : list JS.num) (x : JS.num) : list JS.num :=
  if existsb (JS.same_value x) seen then seen else seen ++ [x].

Definition Set_of (xs : list JS.num) : list JS.num :=
  fold_left Set_add xs [].

Record Summary : Type := mkSummary {
  totalPoints : nat;
  totalFloors : nat;
  startFloor : JS.num;
  endFloor : JS.num;
  floorsVisited : nat;
  summary_duration : JS.num;
}.

Definition getSummary (d : Data) : Summary :=
  {| totalPoints := length (points d);
     totalFloors := length (trajectory d);
     startFloor := floor_or_zero (at_index (trajectory d) 0);
     endFloor :=
       floor_or_zero
         (at_index (trajectory d) (Z.of_nat (length (trajectory d)) - 1));
     floorsVisited := length (Set_of (map v_floor (trajectory d)));
     summary_duration := duration d |}.

(** ** Vocabulary of the statements *)

(** The number of floors [detectFloor] moves for a finite acceleration:
    [Math.round(|z| * 500 / 1000 / 3)]. *)
Definition floor_steps (q : Q) : Z :=
  Qfloor (Qabs q * 500 / 1000 / 3 + (1 # 2)).

(** A floor of the building: an integer from 0 to 12. *)
Definition is_floor (n : JS.num) : Prop :=
  exists k : Z, (0 <= k <= 12)%Z /\ n = JS.of_Z k.

Definition floor_or_nan (n : JS.num) : Prop :=
  n = NaN \/ is_floor n.

(** A call whose [z] argument converts to a number other than [NaN]. *)
Definition numeric_z (c : Call) : Prop :=
  JS.ToNumber (c_z c) <> NaN.

(** No two neighbours of a list of floors are [===]. *)
Fixpoint no_repeat (floors : list JS.num) : Prop :=
  match floors with
  | a :: (b :: _) as rest => (a === b)%js = false /\ no_repeat rest
  | _ => True
  end.

(** [a] stands somewhere before an occurrence of [b] in [l]. *)
Fixpoint precedes {A : Type} (a b : A) (l : list A) : Prop :=
  match l with
  | [] => False
  | y :: rest => (y = a /\ b ∈ rest) \/ precedes a b rest
  end.


(** The trajectory entry [v] is on floor [k]. *)
Definition on_floor (k : nat) (v : Visit) : bool :=
  (v_floor v === JS.of_Z (Z.of_nat k))%js.

(** The seconds from an entry to the next one. *)
Definition visit_gap (v next : Visit) : JS.num :=
  ((JS.ToNumber (v_timestamp next) - JS.ToNumber (v_timestamp v)) / 1000)%js.

(** The gaps that follow the entries on floor [k], in trajectory order;
    the last entry of the trajectory has no gap. *)
Fixpoint dwell_gaps (k : nat) (traj : list Visit) : list JS.num :=
  match traj with
  | [] => []
  | v :: rest =>
      match rest with
      | next :: _ => if on_floor k v then [visit_gap v next] else []
      | [] => []
      end ++ dwell_gaps k rest
  end.

(** Consecutive entries carry finite timestamps that do not decrease. *)
Fixpoint timestamps_ascend (traj : list Visit) : Prop :=
  match traj with
  | v :: (next :: _) as rest =>
      (exists a b : Q,
         v_timestamp v = Num (Fin a) /\ v_timestamp next = Num (Fin b) /\
         (a <= b)%Q) /\
      timestamps_ascend rest
  | _ => True
  end.

(** A call whose three accelerations convert to numbers other than
    [NaN]. *)
Definition numeric_xyz (c : Call) : Prop :=
  JS.ToNumber (c_x c) <> NaN /\ JS.ToNumber (c_y c) <> NaN /\
  JS.ToNumber (c_z c) <> NaN.

(** * Properties *)

(** ** Number facts *)

Section NumberFacts.

Local Open Scope js_scope.

Lemma add_of_Z (a b : Z) : JS.of_Z a + JS.of_Z b = JS.of_Z (a + b).
Proof.
  unfold JS.of_Z; cbn [JS.add]. f_equal.
  rewrite <- (inject_Z_Qred (a + b)).
  apply Qred_complete. rewrite inject_Z_plus. reflexivity.
Qed.

Lemma sub_of_Z (a b : Z) : JS.of_Z a - JS.of_Z b = JS.of_Z (a - b).
Proof.
  unfold JS.of_Z; cbn [JS.sub]. f_equal.
  rewrite <- (inject_Z_Qred (a - b)).
  apply Qred_complete. unfold Qminus, Z.sub.
  rewrite inject_Z_plus, inject_Z_opp. reflexivity.
Qed.

Lemma lt_Fin (p q : Q) : (Fin p <? Fin q) = true <-> (p < q)%Q.
Proof.
  cbn [JS.lt]. rewrite Qlt_alt. destruct (p ?= q)%Q; intuition congruence.
Qed.

Lemma lt_Fin_false (p q : Q) : (Fin p <? Fin q) = false <-> (q <= p)%Q.
Proof.
  cbn [JS.lt].
  destruct (Qcompare_spec p q) as [E|L|G]; split; intro H;
    try reflexivity; try discriminate; lra.
Qed.

Lemma le_Fin (p q : Q) : (Fin p <=? Fin q) = true <-> (p <= q)%Q.
Proof.
  cbn [JS.le]. rewrite Qle_alt. destruct (p ?= q)%Q; intuition congruence.
Qed.

Lemma lt_of_Z (a b : Z) : (JS.of_Z a <? JS.of_Z b) = (a <? b)%Z.
Proof.
  unfold JS.of_Z. cbn [JS.lt]. unfold Qcompare, inject_Z; cbn [Qnum Qden].
  rewrite !Z.mul_1_r. unfold Z.ltb. reflexivity.
Qed.

Lemma le_of_Z (a b : Z) : (JS.of_Z a <=? JS.of_Z b) = (a <=? b)%Z.
Proof.
  unfold JS.of_Z. cbn [JS.le]. unfold Qcompare, inject_Z; cbn [Qnum Qden].
  rewrite !Z.mul_1_r. unfold Z.leb. destruct (a ?= b)%Z; reflexivity.
Qed.

Lemma Math_min_of_Z (a b : Z) :
  JS.Math_min (JS.of_Z a) (JS.of_Z b) = JS.of_Z (Z.min a b).
Proof.
  unfold JS.Math_min. unfold JS.of_Z at 1 2. fold (JS.of_Z a). fold (JS.of_Z b).
  rewrite lt_of_Z. destruct (Z.ltb_spec b a); f_equal; lia.
Qed.

Lemma Math_max_of_Z (a b : Z) :
  JS.Math_max (JS.of_Z a) (JS.of_Z b) = JS.of_Z (Z.max a b).
Proof.
  unfold JS.Math_max. unfold JS.of_Z at 1 2. fold (JS.of_Z a). fold (JS.of_Z b).
  rewrite lt_of_Z. destruct (Z.ltb_spec a b); f_equal; lia.
Qed.

Lemma strict_eq_refl (a : JS.num) : a <> NaN -> (a === a) = true.
Proof.
  destruct a; cbn; try congruence. intros _. apply Qeq_bool_refl.
Qed.

End NumberFacts.

(** ** [detectFloor] case by case *)

Section DetectFloor.

Local Open Scope js_scope.

Lemma div_Fin (p q : Q) :
  JS.is_zero q = false -> Fin p / Fin q = Fin (Qred (p / q)).
Proof. intros H. cbn [JS.div]. rewrite H. reflexivity. Qed.

Lemma floorChange_Fin (q : Q) :
  JS.Math_round
    (JS.Math_abs (Fin q) * FLOOR_TRANSITION_TIME / 1000 / FLOOR_HEIGHT)
  = JS.of_Z (floor_steps q).
Proof.
  unfold FLOOR_TRANSITION_TIME, FLOOR_HEIGHT, floor_steps, JS.of_Z.
  cbn [JS.Math_abs JS.mul].
  rewrite !div_Fin by reflexivity.
  cbn [JS.Math_round]. unfold JS.of_Z. do 2 f_equal. apply Qfloor_comp.
  rewrite !Qred_correct. reflexivity.
Qed.

Lemma floor_steps_nonneg (q : Q) : (0 <= floor_steps q)%Z.
Proof.
  unfold floor_steps. change 0%Z with (Qfloor 0).
  apply Qfloor_resp_le. pose proof (Qabs_nonneg q). 
  assert (0 <= Qabs q * 500 / 1000 / 3)%Q; [|lra].
  unfold Qdiv. repeat apply Qmult_le_0_compat; try assumption; discriminate.
Qed.

Lemma floor_steps_mono (p q : Q) :
  (Qabs p <= Qabs q)%Q -> (floor_steps p <= floor_steps q)%Z.
Proof.
  intros H. unfold floor_steps. apply Qfloor_resp_le.
  apply Qplus_le_l. unfold Qdiv. 
  repeat (apply Qmult_le_compat_r; [|discriminate]). exact H.
Qed.

Lemma abs_lt_threshold (q : Q) :
  (JS.Math_abs (Fin q) <? VERTICAL_THRESHOLD) = true <-> (Qabs q < 1 # 2)%Q.
Proof.
  unfold VERTICAL_THRESHOLD. cbn [JS.Math_abs]. rewrite lt_Fin.
  rewrite (Qred_correct (Qabs q)). reflexivity.
Qed.

Lemma abs_ge_threshold (q : Q) :
  (JS.Math_abs (Fin q) <? VERTICAL_THRESHOLD) = false <-> (1 # 2 <= Qabs q)%Q.
Proof.
  unfold VERTICAL_THRESHOLD. cbn [JS.Math_abs]. rewrite lt_Fin_false.
  rewrite (Qred_correct (Qabs q)). reflexivity.
Qed.

Lemma gt_zero_Fin (q : Q) : (Fin q >? 0) = true <-> (0 < q)%Q.
Proof. unfold JS.gt, JS.of_Z. apply lt_Fin. Qed.

Lemma gt_zero_Fin_false (q : Q) : (Fin q >? 0) = false <-> (q <= 0)%Q.
Proof. unfold JS.gt, JS.of_Z. apply lt_Fin_false. Qed.

Variable d : Data.

(** Noise: the threshold branch returns the current floor as it is. *)
Lemma detectFloor_still (z : JS.value) :
  (JS.Math_abs (JS.ToNumber z) <? VERTICAL_THRESHOLD) = true ->
  detectFloor d z = currentFloor d.
Proof. intros H. unfold detectFloor. rewrite H. reflexivity. Qed.

Lemma detectFloor_up (k : Z) (q : Q) :
  currentFloor d = JS.of_Z k -> (1 # 2 <= Qabs q)%Q -> (0 < q)%Q ->
  detectFloor d (Num (Fin q)) = JS.of_Z (Z.min (k + floor_steps q) 12).
Proof.
  intros Hk Ha Hq. unfold detectFloor. cbn [JS.ToNumber].
  rewrite (proj2 (abs_ge_threshold q) Ha), (proj2 (gt_zero_Fin q) Hq).
  rewrite floorChange_Fin, Hk, add_of_Z. apply Math_min_of_Z.
Qed.

Lemma detectFloor_down (k : Z) (q : Q) :
  currentFloor d = JS.of_Z k -> (1 # 2 <= Qabs q)%Q -> (q <= 0)%Q ->
  detectFloor d (Num (Fin q)) = JS.of_Z (Z.max (k - floor_steps q) 0).
Proof.
  intros Hk Ha Hq. unfold detectFloor. cbn [JS.ToNumber].
  rewrite (proj2 (abs_ge_threshold q) Ha), (proj2 (gt_zero_Fin_false q) Hq).
  rewrite floorChange_Fin, Hk, sub_of_Z. apply Math_max_of_Z.
Qed.

Lemma detectFloor_PInf (k : Z) :
  currentFloor d = JS.of_Z k -> detectFloor d (Num PInf) = JS.of_Z 12.
Proof. intros Hk. unfold detectFloor. rewrite Hk. reflexivity. Qed.

Lemma detectFloor_NInf (k : Z) :
  currentFloor d = JS.of_Z k -> detectFloor d (Num NInf) = JS.of_Z 0.
Proof. intros Hk. unfold detectFloor. rewrite Hk. reflexivity. Qed.

(** A [NaN] argument (a missing [z] is one, by [ToNumber]) passes the
    threshold test, fails [z > 0] and reaches [Math.max] as [NaN]. *)
Lemma detectFloor_of_nan (z : JS.value) :
  JS.ToNumber z = NaN -> detectFloor d z = NaN.
Proof.
  intros Hz. unfold detectFloor. rewrite Hz. cbn.
  destruct (currentFloor d); reflexivity.
Qed.

(** Once the current floor is [NaN] every detection is [NaN]. *)
Lemma detectFloor_from_nan (z : JS.value) :
  currentFloor d = NaN -> detectFloor d z = NaN.
Proof.
  intros Hc. unfold detectFloor. rewrite Hc.
  destruct (JS.Math_abs (JS.ToNumber z) <? VERTICAL_THRESHOLD); [reflexivity|].
  destruct (JS.ToNumber z >? 0); reflexivity.
Qed.

End DetectFloor.

(** Scenario 2 of the specification: on a fresh engine [z = 3.0] is half a
    floor, which [Math.round] takes up to one floor. *)
Example detectFloor_half_floor_rounds_up :
  detectFloor empty (Num (Fin 3)) = JS.of_Z 1.
Proof. reflexivity. Qed.

(** ** Invariants of ingestion *)

Section Ingestion.

Local Open Scope js_scope.

Lemma detectFloor_ToNumber (d : Data) (z : JS.value) :
  detectFloor d z = detectFloor d (Num (JS.ToNumber z)).
Proof. reflexivity. Qed.

Lemma is_floor_of_Z (k : Z) : (0 <= k <= 12)%Z -> is_floor (JS.of_Z k).
Proof. intros H. exists k. split; [exact H | reflexivity]. Qed.

Lemma detectFloor_is_floor (d : Data) (n : JS.num) :
  is_floor (currentFloor d) -> n <> NaN ->
  is_floor (detectFloor d (Num n)).
Proof.
  intros (k & Hk & E) Hn. destruct n as [| | |q]; [congruence | | |].
  - rewrite (detectFloor_PInf d k E). apply is_floor_of_Z. lia.
  - rewrite (detectFloor_NInf d k E). apply is_floor_of_Z. lia.
  - pose proof (floor_steps_nonneg q) as Hs.
    destruct (Qlt_le_dec (Qabs q) (1 # 2)) as [Hlt|Hge].
    + rewrite detectFloor_still by (apply abs_lt_threshold; exact Hlt).
      exists k; auto.
    + destruct (Qlt_le_dec 0 q) as [Hpos|Hneg].
      * rewrite (detectFloor_up d k q E Hge Hpos). apply is_floor_of_Z. lia.
      * rewrite (detectFloor_down d k q E Hge Hneg). apply is_floor_of_Z. lia.
Qed.

Lemma detectFloor_floor_or_nan (d : Data) (z : JS.value) :
  floor_or_nan (currentFloor d) -> floor_or_nan (detectFloor d z).
Proof.
  intros [Hc|Hc].
  - left. apply detectFloor_from_nan. exact Hc.
  - rewrite detectFloor_ToNumber.
    destruct (JS.ToNumber z) as [| | |q] eqn:Hz.
    + left. apply detectFloor_of_nan. reflexivity.
    + right. apply detectFloor_is_floor; [exact Hc | discriminate].
    + right. apply detectFloor_is_floor; [exact Hc | discriminate].
    + right. apply detectFloor_is_floor; [exact Hc | discriminate].
Qed.

(** What one call does to the three fields. *)
Lemma feed_cases (d : Data) (c : Call) :
  let f := detectFloor d (c_z c) in
  points (feed d c) = points d ++ [snd (addPoint d (c_x c) (c_y c) (c_z c) (c_timestamp c))] /\
  ((f === currentFloor d) = true /\
     currentFloor (feed d c) = currentFloor d /\
     trajectory (feed d c) = trajectory d
   \/
   (f === currentFloor d) = false /\
     currentFloor (feed d c) = f /\
     trajectory (feed d c) =
       trajectory d ++ [mkVisit f (c_timestamp c) 0]).
Proof.
  unfold feed, addPoint. cbn zeta.
  change (detectFloor _ (c_z c)) with (detectFloor d (c_z c)).
  cbn [currentFloor].
  destruct (detectFloor d (c_z c) === currentFloor d) eqn:E; cbn; auto.
Qed.

End Ingestion.

Section Reachable.

Local Open Scope js_scope.

Lemma run_app (cs1 cs2 : list Call) (d : Data) :
  run (cs1 ++ cs2) d = run cs2 (run cs1 d).
Proof. unfold run. apply fold_left_app. Qed.

Lemma run_snoc (cs : list Call) (c : Call) (d : Data) :
  run (cs ++ [c]) d = feed (run cs d) c.
Proof. rewrite run_app. reflexivity. Qed.

(** Whatever the arguments, a floor the engine records is one of the
    thirteen floors or [NaN]. *)
Lemma feed_floor_or_nan (d : Data) (c : Call) :
  floor_or_nan (currentFloor d) ->
  Forall (fun v => floor_or_nan (v_floor v)) (trajectory d) ->
  floor_or_nan (currentFloor (feed d c)) /\
  Forall (fun v => floor_or_nan (v_floor v)) (trajectory (feed d c)).
Proof.
  intros Hc Ht.
  pose proof (detectFloor_floor_or_nan d (c_z c) Hc) as Hf.
  destruct (feed_cases d c) as [_ [(_ & -> & ->)|(_ & -> & ->)]].
  - split; assumption.
  - split; [exact Hf|]. apply Forall_app. split; [exact Ht|].
    constructor; [exact Hf | constructor].
Qed.

Lemma run_floor_or_nan (cs : list Call) :
  floor_or_nan (currentFloor (run cs empty)) /\
  Forall (fun v => floor_or_nan (v_floor v)) (trajectory (run cs empty)).
Proof.
  induction cs as [|c cs IH] using rev_ind.
  - split; [|constructor]. right. apply (is_floor_of_Z 0). lia.
  - rewrite run_snoc. destruct IH as [Hc Ht]. apply feed_floor_or_nan; assumption.
Qed.

(** Fed numbers only, the engine records floors only. *)
Lemma feed_is_floor (d : Data) (c : Call) :
  numeric_z c ->
  is_floor (currentFloor d) ->
  Forall (fun v => is_floor (v_floor v)) (trajectory d) ->
  is_floor (currentFloor (feed d c)) /\
  Forall (fun v => is_floor (v_floor v)) (trajectory (feed d c)).
Proof.
  intros Hz Hc Ht.
  assert (Hf : is_floor (detectFloor d (c_z c))).
  { rewrite detectFloor_ToNumber. apply detectFloor_is_floor; assumption. }
  destruct (feed_cases d c) as [_ [(_ & -> & ->)|(_ & -> & ->)]].
  - split; assumption.
  - split; [exact Hf|]. apply Forall_app. split; [exact Ht|].
    constructor; [exact Hf | constructor].
Qed.

Lemma run_is_floor (cs : list Call) :
  Forall numeric_z cs ->
  is_floor (currentFloor (run cs empty)) /\
  Forall (fun v => is_floor (v_floor v)) (trajectory (run cs empty)).
Proof.
  induction cs as [|c cs IH] using rev_ind; intros Hz.
  - split; [|constructor]. apply (is_floor_of_Z 0). lia.
  - apply Forall_app in Hz. destruct Hz as [Hcs Hc].
    rewrite run_snoc. destruct (IH Hcs) as [H1 H2].
    apply feed_is_floor; try assumption.
    inversion Hc; assumption.
Qed.

End Reachable.

(** ** Floors stay in range (C1) *)

Section FloorRange.

Local Open Scope js_scope.

(** C1 (the code departs from the claim).  The claim: after any sequence
    of [addPoint] calls, calls with a missing argument included,
    [currentFloor] and every trajectory floor are integers from 0 to 12.
    On a fresh engine [addPoint(0, 0, undefined, 1000)] stores [z: 0] in
    the point but hands the raw [z] to [detectFloor]: the current floor
    becomes [NaN] and a trajectory entry with floor [NaN] is pushed. *)
Theorem addPoint_missing_z_records_NaN :
  let d := run [mkCall (Num 0) (Num 0) Undefined (Num 1000)] empty in
  map p_z (points d) = [JS.of_Z 0] /\
  currentFloor d = NaN /\
  map v_floor (trajectory d) = [NaN] /\
  ~ is_floor (currentFloor d).
Proof.
  cbv zeta. repeat split; try reflexivity.
  intros (k & _ & E). discriminate E.
Qed.

(** It is so on every session: a [z] that converts to [NaN] sets the
    current floor to [NaN] and pushes an entry with floor [NaN]. *)
Lemma addPoint_nan_z (d : Data) (x y z t : JS.value) :
  JS.ToNumber z = NaN ->
  currentFloor (fst (addPoint d x y z t)) = NaN /\
  trajectory (fst (addPoint d x y z t)) = trajectory d ++ [mkVisit NaN t 0].
Proof.
  intros Hz. pose proof (detectFloor_of_nan d z Hz) as Hd.
  destruct (feed_cases d (mkCall x y z t)) as [_ Hc].
  unfold feed in Hc. cbn [c_x c_y c_z c_timestamp] in Hc. rewrite Hd in Hc.
  destruct Hc as [(E & _)|(_ & Hc & Ht)]; [discriminate E | auto].
Qed.

(** With every [z] a number other than [NaN] the range claim holds. *)
Lemma floors_in_range_for_numeric_z (cs : list Call) :
  Forall numeric_z cs ->
  is_floor (currentFloor (run cs empty)) /\
  forall v, v ∈ trajectory (run cs empty) -> is_floor (v_floor v).
Proof.
  intros H. destruct (run_is_floor cs H) as [H1 H2]. split; [exact H1|].
  intros v Hv. rewrite Forall_forall in H2. apply H2. exact Hv.
Qed.

End FloorRange.

(** ** Neighbouring trajectory entries (C2) *)

Section NoRepeat.

Local Open Scope js_scope.

Lemma strict_eq_sym (a b : JS.num) : (a === b) = (b === a).
Proof.
  destruct a, b; try reflexivity. cbn. unfold Qeq_bool. apply Z.eqb_sym.
Qed.

Lemma no_repeat_snoc (floors : list JS.num) (b : JS.num) :
  no_repeat floors ->
  (forall a, last floors = Some a -> (a === b) = false) ->
  no_repeat (floors ++ [b]).
Proof.
  induction floors as [|a [|a' rest] IH]; intros Hn Hl.
  - exact I.
  - split; [|exact I]. apply Hl. reflexivity.
  - destruct Hn as [Ha Hn]. split; [exact Ha|].
    apply IH; [exact Hn|]. intros c Hc. apply Hl. exact Hc.
Qed.

Lemma no_repeat_lookup (floors : list JS.num) (i : nat) (a b : JS.num) :
  no_repeat floors ->
  floors !! i = Some a -> floors !! (i + 1)%nat = Some b ->
  (a === b) = false.
Proof.
  revert i. induction floors as [|c [|c' rest] IH]; intros i Hn Ha Hb.
  - discriminate.
  - destruct i; discriminate.
  - destruct Hn as [Hc Hn]. destruct i as [|i].
    + cbn in Ha, Hb. congruence.
    + apply (IH i); assumption.
Qed.

(** The current floor is the floor of the last trajectory entry, and no
    entry is [===] to the one before it. *)
Lemma feed_no_repeat (d : Data) (c : Call) :
  (forall a, last (map v_floor (trajectory d)) = Some a -> a = currentFloor d) ->
  no_repeat (map v_floor (trajectory d)) ->
  (forall a, last (map v_floor (trajectory (feed d c))) = Some a ->
             a = currentFloor (feed d c)) /\
  no_repeat (map v_floor (trajectory (feed d c))).
Proof.
  intros Hl Hn.
  destruct (feed_cases d c) as [_ [(_ & -> & ->)|(E & -> & ->)]].
  - split; assumption.
  - rewrite map_app. cbn [map v_floor]. split.
    + intros a Ha. rewrite last_snoc in Ha. congruence.
    + apply no_repeat_snoc; [exact Hn|].
      intros a Ha. rewrite (Hl a Ha), strict_eq_sym. exact E.
Qed.

Lemma trajectory_no_repeat (cs : list Call) :
  (forall a, last (map v_floor (trajectory (run cs empty))) = Some a ->
             a = currentFloor (run cs empty)) /\
  no_repeat (map v_floor (trajectory (run cs empty))).
Proof.
  induction cs as [|c cs IH] using rev_ind.
  - split; [discriminate | exact I].
  - rewrite run_snoc. destruct IH. apply feed_no_repeat; assumption.
Qed.

(** Fed numbers only, neighbouring entries have different floors. *)
Lemma trajectory_neighbours_differ (cs : list Call) (i : nat) (a b : Visit) :
  Forall numeric_z cs ->
  trajectory (run cs empty) !! i = Some a ->
  trajectory (run cs empty) !! (i + 1)%nat = Some b ->
  v_floor a <> v_floor b.
Proof.
  intros Hz Ha Hb E.
  destruct (trajectory_no_repeat cs) as [_ Hn].
  assert (H : (v_floor a === v_floor b) = false).
  { apply (no_repeat_lookup _ i _ _ Hn); rewrite list_lookup_fmap.
    - rewrite Ha; reflexivity.
    - rewrite Hb; reflexivity. }
  destruct (floors_in_range_for_numeric_z cs Hz) as [_ Hf].
  assert (Hin : a ∈ trajectory (run cs empty)).
  { apply list_elem_of_lookup. exists i. exact Ha. }
  destruct (Hf a Hin) as (k & _ & Ek).
  rewrite <- E, strict_eq_refl in H; [discriminate|].
  rewrite Ek. discriminate.
Qed.

(** C2 (the code departs from the claim).  The claim: after any sequence
    of [addPoint] calls no two consecutive trajectory entries have the
    same floor.  Two calls that leave [z] out push two consecutive
    entries whose floor is [NaN] both: [detectFloor] answers [NaN], the
    current floor is [NaN], and [NaN !== NaN] lets the second entry
    through. *)
Theorem trajectory_repeats_NaN_floor :
  let d := run [mkCall (Num 0) (Num 0) Undefined (Num 1000);
                mkCall (Num 0) (Num 0) Undefined (Num 2000)] empty in
  map v_floor (trajectory d) = [NaN; NaN] /\
  exists a b,
    trajectory d !! 0%nat = Some a /\ trajectory d !! 1%nat = Some b /\
    v_floor a = v_floor b /\ JS.same_value (v_floor a) (v_floor b) = true.
Proof.
  cbv zeta. split; [reflexivity|].
  exists (mkVisit NaN (Num 1000) 0), (mkVisit NaN (Num 2000) 0).
  repeat split.
Qed.

End NoRepeat.

(** ** Accelerations below the threshold (C3) *)

Section Noise.

Local Open Scope js_scope.

(** What holds of the threshold branch on every session: for [|z| < 0.5],
    [detectFloor(z)] returns the session's current floor as it is and
    [addPoint] appends its sample to [points] and leaves [currentFloor]
    as it is; [trajectory] is left unchanged when the current floor is a
    number. *)
Theorem addPoint_below_threshold (d : Data) (x y z t : JS.value) :
  (JS.Math_abs (JS.ToNumber z) <? VERTICAL_THRESHOLD) = true ->
  detectFloor d z = currentFloor d /\
  points (fst (addPoint d x y z t)) = points d ++ [snd (addPoint d x y z t)] /\
  currentFloor (fst (addPoint d x y z t)) = currentFloor d /\
  (currentFloor d <> NaN ->
   trajectory (fst (addPoint d x y z t)) = trajectory d).
Proof.
  intros Hz. pose proof (detectFloor_still d z Hz) as Hd.
  split; [exact Hd|].
  destruct (feed_cases d (mkCall x y z t)) as [Hp Hc].
  unfold feed in Hp, Hc. cbn [c_x c_y c_z c_timestamp] in Hp, Hc.
  split; [exact Hp|]. rewrite Hd in Hc.
  destruct Hc as [(_ & Hc & Ht)|(E & Hc & Ht)].
  - split; [exact Hc|]. intros _. exact Ht.
  - split; [exact Hc|]. intros Hn.
    rewrite strict_eq_refl in E by exact Hn. discriminate.
Qed.

(** Scenario 1: [addPoint(0,0,0,1000)] on a fresh engine. *)
Lemma addPoint_below_threshold_witness :
  (JS.Math_abs (JS.ToNumber (Num 0)) <? VERTICAL_THRESHOLD) = true /\
  trajectory (fst (addPoint empty (Num 0) (Num 0) (Num 0) (Num 1000))) = [] /\
  currentFloor (fst (addPoint empty (Num 0) (Num 0) (Num 0) (Num 1000))) =
    JS.of_Z 0.
Proof.
  split; [reflexivity|].
  destruct (addPoint_below_threshold empty (Num 0) (Num 0) (Num 0) (Num 1000)
              eq_refl) as (_ & _ & Hc & Ht).
  split.
  - rewrite Ht; [reflexivity | discriminate].
  - rewrite Hc. reflexivity.
Defined.

(** C3 (the code departs from the claim).  The claim: for every [z] with
    [|z| < 0.5], [detectFloor(z)] returns the current floor and so
    [addPoint] with such a [z] leaves [trajectory] and [currentFloor]
    unchanged.  On the session that [addPoint(0, 0, undefined, 1000)]
    leaves, [addPoint(0, 0, 0, 2000)] has [|z| < 0.5] and [detectFloor]
    does return the current floor, which is [NaN]; [NaN !== NaN] holds,
    and a trajectory entry with floor [NaN] is pushed. *)
Theorem addPoint_below_threshold_pushes_on_NaN_floor :
  let d := run [mkCall (Num 0) (Num 0) Undefined (Num 1000)] empty in
  let d' := fst (addPoint d (Num 0) (Num 0) (Num 0) (Num 2000)) in
  (JS.Math_abs (JS.ToNumber (Num 0)) <? VERTICAL_THRESHOLD) = true /\
  currentFloor d = NaN /\
  detectFloor d (Num 0) = NaN /\
  trajectory d = [mkVisit NaN (Num 1000) 0] /\
  trajectory d' = [mkVisit NaN (Num 1000) 0; mkVisit NaN (Num 2000) 0] /\
  trajectory d' <> trajectory d.
Proof.
  cbv zeta. repeat split; try reflexivity. discriminate.
Qed.

End Noise.

(** ** Bounds and monotonicity of [detectFloor] (C4) *)

Section Bounds.

Local Open Scope js_scope.

Lemma ge_half_inv (z : JS.num) :
  (z >=? Fin (1 # 2)) = true ->
  z = PInf \/ exists q, z = Fin q /\ (1 # 2 <= q)%Q.
Proof.
  unfold JS.ge. destruct z as [| | |q]; cbn [JS.le]; try discriminate.
  - auto.
  - intros H. right. exists q. split; [reflexivity|].
    apply (proj1 (le_Fin (1 # 2) q)). exact H.
Qed.

Lemma le_neg_half_inv (z : JS.num) :
  (z <=? Fin (-1 # 2)) = true ->
  z = NInf \/ exists q, z = Fin q /\ (q <= -1 # 2)%Q.
Proof.
  destruct z as [| | |q]; cbn [JS.le]; try discriminate.
  - auto.
  - intros H. right. exists q. split; [reflexivity|].
    apply (proj1 (le_Fin q (-1 # 2))). exact H.
Qed.

Variable d : Data.
Variable k : Z.
Hypothesis current : currentFloor d = JS.of_Z k.

Lemma detectFloor_upward (q : Q) :
  (1 # 2 <= q)%Q ->
  detectFloor d (Num (Fin q)) = JS.of_Z (Z.min (k + floor_steps q) 12).
Proof.
  intros H. apply detectFloor_up; [exact current | | lra].
  rewrite Qabs_pos by lra. exact H.
Qed.

Lemma detectFloor_downward (q : Q) :
  (q <= -1 # 2)%Q ->
  detectFloor d (Num (Fin q)) = JS.of_Z (Z.max (k - floor_steps q) 0).
Proof.
  intros H. apply detectFloor_down; [exact current | | lra].
  rewrite Qabs_neg by lra. lra.
Qed.

Lemma detectFloor_at_most_12 (z : JS.num) :
  (z >=? Fin (1 # 2)) = true -> (detectFloor d (Num z) <=? 12) = true.
Proof.
  intros H. destruct (ge_half_inv z H) as [->|(q & -> & Hq)].
  - rewrite (detectFloor_PInf d k current). reflexivity.
  - rewrite (detectFloor_upward q Hq), le_of_Z. apply Z.leb_le. lia.
Qed.

Lemma detectFloor_nondecreasing (z1 z2 : JS.num) :
  (z1 >=? Fin (1 # 2)) = true -> (z1 <=? z2) = true ->
  (detectFloor d (Num z1) <=? detectFloor d (Num z2)) = true.
Proof.
  intros H1 H12.
  destruct (ge_half_inv z1 H1) as [->|(q1 & -> & Hq1)].
  - destruct z2; try discriminate H12.
    rewrite (detectFloor_PInf d k current). reflexivity.
  - destruct z2 as [| | |q2]; try discriminate H12.
    + rewrite (detectFloor_PInf d k current), (detectFloor_upward q1 Hq1).
      rewrite le_of_Z. apply Z.leb_le. lia.
    + apply le_Fin in H12.
      rewrite (detectFloor_upward q1 Hq1), (detectFloor_upward q2) by lra.
      rewrite le_of_Z. apply Z.leb_le.
      assert (floor_steps q1 <= floor_steps q2)%Z; [|lia].
      apply floor_steps_mono. rewrite !Qabs_pos by lra. exact H12.
Qed.

Lemma detectFloor_at_least_0 (z : JS.num) :
  (z <=? Fin (-1 # 2)) = true -> (detectFloor d (Num z) >=? 0) = true.
Proof.
  intros H. unfold JS.ge.
  destruct (le_neg_half_inv z H) as [->|(q & -> & Hq)].
  - rewrite (detectFloor_NInf d k current). reflexivity.
  - rewrite (detectFloor_downward q Hq), le_of_Z. apply Z.leb_le. lia.
Qed.

End Bounds.

(** What holds for every integer current floor: for every [z >= 0.5],
    [detectFloor(z) <= 12] and [detectFloor] does not decrease when [z]
    grows; for every [z <= -0.5], [detectFloor(z) >= 0]. *)
Theorem detectFloor_bounds_and_monotone (d : Data) (k : Z) (z1 z2 zn : JS.num) :
  currentFloor d = JS.of_Z k ->
  (z1 >=? Fin (1 # 2))%js = true ->
  (z1 <=? z2)%js = true ->
  (zn <=? Fin (-1 # 2))%js = true ->
  (detectFloor d (Num z1) <=? 12)%js = true /\
  (detectFloor d (Num z1) <=? detectFloor d (Num z2))%js = true /\
  (detectFloor d (Num zn) >=? 0)%js = true.
Proof.
  intros Hk H1 H12 Hn. split; [|split].
  - apply (detectFloor_at_most_12 d k Hk z1 H1).
  - apply (detectFloor_nondecreasing d k Hk z1 z2 H1 H12).
  - apply (detectFloor_at_least_0 d k Hk zn Hn).
Qed.

(** From floor 5: [z = 3] reaches floor 6, [z = 100] is clamped to 12 and
    [z = -100] to 0. *)
Lemma detectFloor_bounds_and_monotone_witness :
  let d := {| points := []; duration := 0; currentFloor := 5;
              trajectory := [] |} in
  (detectFloor d (Num (Fin 3)) <=? 12)%js = true /\
  (detectFloor d (Num (Fin 3)) <=? detectFloor d (Num (Fin 100)))%js = true /\
  (detectFloor d (Num (Fin (-100))) >=? 0)%js = true.
Proof.
  cbv zeta.
  apply (detectFloor_bounds_and_monotone _ 5 (Fin 3) (Fin 100) (Fin (-100)));
    reflexivity.
Defined.

(** C4 (the code departs from the claim).  The claim: for every fixed
    current floor, [detectFloor(z) <= 12] and [detectFloor] does not
    decrease in [z] for [z >= 0.5], and [detectFloor(z) >= 0] for
    [z <= -0.5].  On the session that [addPoint(0, 0, undefined, 1000)]
    leaves the current floor is [NaN]: [detectFloor(3)], [detectFloor(6)]
    and [detectFloor(-3)] are [NaN], and each of [NaN <= 12],
    [NaN <= NaN] and [NaN >= 0] is false. *)
Theorem detectFloor_bounds_fail_on_NaN_floor :
  let d := run [mkCall (Num 0) (Num 0) Undefined (Num 1000)] empty in
  currentFloor d = NaN /\
  (Fin 3 >=? Fin (1 # 2))%js = true /\
  (Fin 3 <=? Fin 6)%js = true /\
  (Fin (-3) <=? Fin (-1 # 2))%js = true /\
  detectFloor d (Num (Fin 3)) = NaN /\
  detectFloor d (Num (Fin 6)) = NaN /\
  detectFloor d (Num (Fin (-3))) = NaN /\
  (detectFloor d (Num (Fin 3)) <=? 12)%js = false /\
  (detectFloor d (Num (Fin 3)) <=? detectFloor d (Num (Fin 6)))%js = false /\
  (detectFloor d (Num (Fin (-3))) >=? 0)%js = false.
Proof.
  cbv zeta. repeat split.
Qed.

(** ** The sample [addPoint] builds (C5) *)

Section Sample.

Local Open Scope js_scope.

(** C5 (the code departs from the claim).  The claim: the sample has
    [x], [y], [z] equal to the inputs with a missing one coerced to 0 and
    [magnitude] equal to the square root of the sum of squares of those
    coerced values.  [addPoint(undefined, 3, 4, 1000)] stores
    [x: 0, y: 3, z: 4], whose root of squares is 5, but computes
    [magnitude] from the raw arguments: [NaN]. *)
Theorem addPoint_missing_x_magnitude_NaN :
  let p := snd (addPoint empty Undefined (Num 3) (Num 4) (Num 1000)) in
  p_x p = JS.of_Z 0 /\ p_y p = JS.of_Z 3 /\ p_z p = JS.of_Z 4 /\
  p_magnitude p = NaN /\
  JS.Math_sqrt (p_x p * p_x p + p_y p * p_y p + p_z p * p_z p) = JS.of_Z 5.
Proof. cbv zeta. repeat split. Qed.

(** It is so on every session and for each of the three arguments. *)
Lemma addPoint_nan_magnitude (d : Data) (x y z t : JS.value) :
  JS.ToNumber x = NaN \/ JS.ToNumber y = NaN \/ JS.ToNumber z = NaN ->
  p_magnitude (snd (addPoint d x y z t)) = NaN.
Proof.
  cbn [addPoint snd p_magnitude].
  intros [H|[H|H]]; rewrite H; cbn [JS.mul JS.add].
  - reflexivity.
  - destruct (JS.ToNumber x * JS.ToNumber x); reflexivity.
  - destruct (JS.ToNumber x * JS.ToNumber x + JS.ToNumber y * JS.ToNumber y);
      reflexivity.
Qed.

Lemma or_zero_square (v : JS.value) :
  JS.ToNumber v <> NaN ->
  JS.or_zero v * JS.or_zero v = JS.ToNumber v * JS.ToNumber v.
Proof.
  destruct v as [| |[| | |q]]; cbn; try congruence.
  intros _. unfold JS.or_zero. cbn [JS.truthy JS.truthy_num JS.ToNumber].
  destruct (JS.is_zero q) eqn:E; cbn [negb]; [|reflexivity].
  unfold JS.is_zero in E. apply Qeq_bool_iff in E.
  unfold JS.of_Z. cbn [JS.mul]. f_equal. apply Qred_complete.
  rewrite E. reflexivity.
Qed.

(** With the three arguments numbers other than [NaN], the magnitude is
    the one of the stored coordinates. *)
Lemma addPoint_magnitude_numeric (d : Data) (x y z t : JS.value) :
  JS.ToNumber x <> NaN -> JS.ToNumber y <> NaN -> JS.ToNumber z <> NaN ->
  let p := snd (addPoint d x y z t) in
  p_magnitude p =
    JS.Math_sqrt (p_x p * p_x p + p_y p * p_y p + p_z p * p_z p).
Proof.
  intros Hx Hy Hz. cbn.
  rewrite !or_zero_square by assumption. reflexivity.
Qed.

(** Recorded points are never touched again: later calls only append. *)
Lemma run_points_prefix (cs : list Call) (d : Data) :
  exists later, points (run cs d) = points d ++ later.
Proof.
  induction cs as [|c cs IH] using rev_ind.
  - exists []. cbn. rewrite app_nil_r. reflexivity.
  - destruct IH as [later IH]. rewrite run_snoc.
    destruct (feed_cases (run cs d) c) as [-> _]. rewrite IH.
    eexists. rewrite <- app_assoc. reflexivity.
Qed.

End Sample.

(** ** Normalisation when no matched point moves sideways (C6) *)

Section ZeroAccel.

Local Open Scope js_scope.

(** C6 (the code departs from the claim).  The claim: when every matched
    point has zero [x] and [y], every returned point has
    [normalizedX = normalizedY = CAR_WIDTH/2], that is 0.75.  After
    [addPoint(0,0,0,1000)] on a fresh engine, [getFloorHeatmap(0)]
    matches that point, finds [maxAccel = 0], divides 0 by 0 and
    returns [NaN] for both coordinates. *)
Theorem getFloorHeatmap_zero_accel_NaN :
  let d := run [mkCall (Num 0) (Num 0) (Num 0) (Num 1000)] empty in
  map (fun h => (hp_normalizedX h, hp_normalizedY h)) (getFloorHeatmap d 0)
    = [(NaN, NaN)] /\
  CAR_WIDTH / 2 = Fin (3 # 4).
Proof. cbv zeta. split; reflexivity. Qed.

(** The path beside it: as soon as one matched point moves sideways, a
    point with zero [x] and [y] is placed at the centre, (0.75, 0.75). *)
Example getFloorHeatmap_centre_when_scaled :
  let d := run [mkCall (Num 0) (Num 0) (Num 0) (Num 1000);
                mkCall (Num 1) (Num 0) (Num 0) (Num 2000)] empty in
  map (fun h => (hp_normalizedX h, hp_normalizedY h)) (getFloorHeatmap d 0)
    = [(Fin (3 # 4), Fin (3 # 4)); (Fin (3 # 2), Fin (3 # 4))].
Proof. reflexivity. Qed.

Lemma abs_zero (a : JS.num) : (a === 0) = true -> JS.Math_abs a = JS.of_Z 0.
Proof.
  destruct a as [| | |q]; cbn [JS.strict_eq JS.of_Z]; try discriminate.
  intros E. apply Qeq_bool_iff in E. cbn [JS.Math_abs]. unfold JS.of_Z.
  f_equal. rewrite <- (inject_Z_Qred 0). apply Qred_complete.
  rewrite E. reflexivity.
Qed.

Lemma div_zero_zero (a : JS.num) : (a === 0) = true -> a / JS.of_Z 0 = NaN.
Proof.
  destruct a as [| | |q]; cbn [JS.strict_eq JS.of_Z]; try discriminate.
  intros E. apply Qeq_bool_iff in E. cbn. unfold JS.sgn.
  rewrite (proj1 (Qeq_alt 0 q)); [reflexivity|]. symmetry. exact E.
Qed.

Lemma max_spread_zeros (xs : list JS.num) (acc : JS.num) :
  Forall (fun a => a = JS.of_Z 0) xs ->
  acc = NInf \/ acc = JS.of_Z 0 ->
  xs <> [] \/ acc = JS.of_Z 0 ->
  fold_left JS.Math_max xs acc = JS.of_Z 0.
Proof.
  revert acc. induction xs as [|a xs IH]; intros acc Hx Ha Hne.
  - destruct Hne as [Hne|Hne]; [congruence | exact Hne].
  - inversion Hx as [|? ? Ha0 Hxs]; subst. cbn [fold_left].
    apply IH; [exact Hxs | |]; destruct Ha as [->| ->]; right; reflexivity.
Qed.

(** Whatever the session, a zero [maxAccel] makes every returned
    coordinate [NaN]. *)
Lemma getFloorHeatmap_zero_accel (d : Data) (floor : JS.num) :
  (forall p, p ∈ points d ->
             (detectFloor d (Num (p_z p)) === floor) = true ->
             (p_x p === 0) = true /\ (p_y p === 0) = true) ->
  forall h, h ∈ getFloorHeatmap d floor ->
            hp_normalizedX h = NaN /\ hp_normalizedY h = NaN.
Proof.
  intros Hz h. unfold getFloorHeatmap.
  set (matched := List.filter _ (points d)).
  assert (Hm : forall p, p ∈ matched ->
                         (p_x p === 0) = true /\ (p_y p === 0) = true).
  { intros p Hp. apply list_elem_of_In, filter_In in Hp. destruct Hp as [Hp E].
    apply Hz; [apply list_elem_of_In; exact Hp | exact E]. }
  destruct matched as [|p0 ps] eqn:Em; cbn [length Nat.eqb].
  { intros Hh. inversion Hh. }
  rewrite <- Em in *. clear Hz.
  assert (Hmax : JS.Math_max_spread
            (map (fun p => JS.Math_max (JS.Math_abs (p_x p)) (JS.Math_abs (p_y p)))
                 matched) = JS.of_Z 0).
  { apply max_spread_zeros.
    - apply Forall_forall. intros a Ha. apply list_elem_of_In, in_map_iff in Ha.
      destruct Ha as (p & <- & Hp). apply list_elem_of_In in Hp.
      destruct (Hm p Hp) as [Hx Hy].
      rewrite (abs_zero _ Hx), (abs_zero _ Hy). reflexivity.
    - left; reflexivity.
    - left. rewrite Em. discriminate. }
  rewrite Hmax. intros Hh. apply list_elem_of_In, in_map_iff in Hh.
  destruct Hh as (p & <- & Hp). apply list_elem_of_In in Hp.
  destruct (Hm p Hp) as [Hx Hy]. cbn [hp_normalizedX hp_normalizedY].
  rewrite (div_zero_zero _ Hx), (div_zero_zero _ Hy). split; reflexivity.
Qed.

End ZeroAccel.

(** ** [getFloorHeatmap] is one filter pass against the present state (C7) *)

Section FloorHeatmap.

Local Open Scope js_scope.

(** The points [getFloorHeatmap(floor)] keeps: those whose [z], put
    through [detectFloor] against the current floor of [d], gives
    [floor]. *)
Local Abbreviation matching d floor :=
  (List.filter (fun p => detectFloor d (Num (p_z p)) === floor) (points d)).

Lemma getFloorHeatmap_points (d : Data) (floor : JS.num) :
  map hp_point (getFloorHeatmap d floor) = matching d floor.
Proof.
  unfold getFloorHeatmap.
  destruct (List.filter _ (points d)) as [|p ps]; [reflexivity|].
  cbn [length Nat.eqb]. rewrite map_map. cbn [hp_point]. apply map_id.
Qed.

Lemma getFloorHeatmap_none (d : Data) (floor : JS.num) :
  matching d floor = [] -> getFloorHeatmap d floor = [].
Proof.
  unfold getFloorHeatmap. intros ->. reflexivity.
Qed.

Lemma off_range_never_detected (a floor : JS.num) :
  floor_or_nan a ->
  (floor <? 0) = true \/ (floor >? 12) = true ->
  (a === floor) = false.
Proof.
  intros [->|(k & Hk & ->)] Hf; [reflexivity|].
  destruct floor as [| | |q]; try reflexivity.
  cbn [JS.strict_eq JS.of_Z].
  destruct (Qeq_bool (inject_Z k) q) eqn:E; [|reflexivity].
  apply Qeq_bool_iff in E.
  assert (H0 : (inject_Z 0 <= inject_Z k)%Q) by (rewrite <- Zle_Qle; lia).
  assert (H12 : (inject_Z k <= inject_Z 12)%Q) by (rewrite <- Zle_Qle; lia).
  destruct Hf as [Hf|Hf]; unfold JS.gt, JS.of_Z in Hf; apply lt_Fin in Hf;
    lra.
Qed.

(** C7.  On the session reached by any sequence of calls,
    [getFloorHeatmap(floor)] returns, in insertion order, exactly the
    recorded points whose [z] re-evaluated by [detectFloor] against the
    session's present [currentFloor] is [===] to [floor]; it returns the
    empty sequence when none matches, which is the case of every
    [floor] below 0 or above 12. *)
Theorem getFloorHeatmap_filters_by_present_floor
    (cs : list Call) (floor : JS.num) :
  let d := run cs empty in
  map hp_point (getFloorHeatmap d floor) =
    List.filter (fun p => detectFloor d (Num (p_z p)) === floor) (points d) /\
  (List.filter (fun p => detectFloor d (Num (p_z p)) === floor) (points d) = [] ->
   getFloorHeatmap d floor = []) /\
  ((floor <? 0) = true \/ (floor >? 12) = true ->
   getFloorHeatmap d floor = []).
Proof.
  cbv zeta. split; [apply getFloorHeatmap_points|].
  split; [apply getFloorHeatmap_none|].
  intros Hf. apply getFloorHeatmap_none.
  destruct (run_floor_or_nan cs) as [Hc _].
  induction (points (run cs empty)) as [|p ps IH]; [reflexivity|].
  cbn [List.filter].
  rewrite (off_range_never_detected _ floor
             (detectFloor_floor_or_nan _ (Num (p_z p)) Hc) Hf).
  exact IH.
Qed.

(** Scenario 4: [getFloorHeatmap(99)] after two samples. *)
Lemma getFloorHeatmap_filters_by_present_floor_witness :
  let d := run [mkCall (Num 0) (Num 0) (Num 3) (Num 1000);
                mkCall (Num 0) (Num 0) (Num 0) (Num 2000)] empty in
  (JS.of_Z 99 >? 12) = true /\ getFloorHeatmap d 99 = [].
Proof.
  cbv zeta. split; [reflexivity|].
  apply (getFloorHeatmap_filters_by_present_floor
           [mkCall (Num 0) (Num 0) (Num 3) (Num 1000);
            mkCall (Num 0) (Num 0) (Num 0) (Num 2000)] 99).
  right. reflexivity.
Defined.

(** No replay of history: a sample taken at rest on floor 0 is listed under
    floor 1 once a later sample has moved the session there; the moving
    sample itself is listed under floor 2. *)
Example getFloorHeatmap_uses_present_floor :
  let d := run [mkCall (Num 0) (Num 0) (Num 0) (Num 1000);
                mkCall (Num 0) (Num 0) (Num 3) (Num 2000)] empty in
  currentFloor d = JS.of_Z 1 /\
  getFloorHeatmap d 0 = [] /\
  map (fun h => p_timestamp (hp_point h)) (getFloorHeatmap d 1) = [Num 1000] /\
  map (fun h => p_timestamp (hp_point h)) (getFloorHeatmap d 2) = [Num 2000].
Proof. repeat split. Qed.

End FloorHeatmap.

(** ** [getVerticalHeatmap] always lists the thirteen floors (C8) *)

Section VerticalHeatmap.

Local Open Scope js_scope.

Lemma fmap_alter_same {A B : Type} (g : A -> B) (f : A -> A) (k : nat)
    (l : list A) :
  (forall a, g (f a) = g a) -> g <$> alter f k l = g <$> l.
Proof.
  intros H. revert k. induction l as [|a l IH]; intros k; [reflexivity|].
  destruct k as [|k]; cbn.
  - rewrite H. reflexivity.
  - f_equal. apply IH.
Qed.

Lemma forEach_from_invariant {A S : Type} (P : S -> Prop)
    (f : S -> nat -> A -> S) :
  (forall s i a, P s -> P (f s i a)) ->
  forall xs i s, P s -> P (forEach_from f i xs s).
Proof.
  intros Hf xs. induction xs as [|a xs IH]; intros i s Hs; [exact Hs|].
  cbn. apply IH, Hf, Hs.
Qed.

(** The callback rewrites [visits], [lastVisit] and [duration] only. *)
Lemma count_visit_keys (traj : list Visit) (fv : list FloorStats)
    (index : nat) (visit : Visit) :
  fs_floor <$> count_visit traj fv index visit = fs_floor <$> fv /\
  fs_floorName <$> count_visit traj fv index visit = fs_floorName <$> fv.
Proof.
  unfold count_visit.
  destruct (JS.array_index (v_floor visit)) as [k|]; [|auto].
  destruct (fv !! k); [|auto].
  destruct (index <? length traj - 1)%nat; [destruct (traj !! _)|];
    rewrite ?fmap_alter_same by reflexivity; auto.
Qed.

Lemma getVerticalHeatmap_keys (d : Data) :
  fs_floor <$> getVerticalHeatmap d = fs_floor <$> floorVisits_init /\
  fs_floorName <$> getVerticalHeatmap d = fs_floorName <$> floorVisits_init.
Proof.
  unfold getVerticalHeatmap.
  apply (forEach_from_invariant
           (fun fv => fs_floor <$> fv = fs_floor <$> floorVisits_init /\
                      fs_floorName <$> fv = fs_floorName <$> floorVisits_init)).
  - intros fv i v [H1 H2].
    destruct (count_visit_keys (trajectory d) fv i v) as [-> ->]. auto.
  - auto.
Qed.

(** C8.  Whatever the trajectory holds, [getVerticalHeatmap()] returns
    exactly 13 entries, for the floors 0 to 12 in this order, each with
    its floor, its floor name, a duration, a visit count and a last
    visit; on an empty session every duration is 0, every count is 0 and
    every last visit is [null]. *)
Theorem getVerticalHeatmap_thirteen_floors (d : Data) :
  length (getVerticalHeatmap d) = 13%nat /\
  map fs_floor (getVerticalHeatmap d) =
    map JS.of_Z [0; 1; 2; 3; 4; 5; 6; 7; 8; 9; 10; 11; 12]%Z /\
  map fs_floorName (getVerticalHeatmap d) =
    CarTop :: map (fun k => FloorN (JS.of_Z k))
                  [1; 2; 3; 4; 5; 6; 7; 8; 9; 10; 11; 12]%Z /\
  Forall (fun s => fs_duration s = JS.of_Z 0 /\ fs_visits s = 0%nat /\
                   fs_lastVisit s = Null)
         (getVerticalHeatmap empty).
Proof.
  destruct (getVerticalHeatmap_keys d) as [Hf Hn].
  split; [|split; [|split]].
  - rewrite <- (length_fmap fs_floor), Hf. reflexivity.
  - exact Hf.
  - exact Hn.
  - repeat constructor.
Qed.

End VerticalHeatmap.

(** ** The steps of [getPath] (C9) *)

Section Path.

Local Open Scope js_scope.

(** Up one floor at 1000 ms, down again at 2500 ms. *)
Local Abbreviation up_down :=
  [mkCall (Num 0) (Num 0) (Num 3) (Num 1000);
   mkCall (Num 0) (Num 0) (Num (Fin (-3))) (Num 2500)].

(** C9, as stated, fails: the first of two entries 1.5 s apart gets
    duration 2, not 1.5, because [getPath] rounds the seconds with
    [Math.round]. *)
Lemma getPath_duration_not_the_exact_seconds :
  let d := run up_down empty in
  exists visit next step,
    trajectory d !! 0%nat = Some visit /\
    trajectory d !! 1%nat = Some next /\
    getPath d !! 0%nat = Some step /\
    (JS.ToNumber (v_timestamp next) - JS.ToNumber (v_timestamp visit)) / 1000
      = Fin (3 # 2) /\
    ps_duration step = Fin 2 /\
    ps_duration step <>
      (JS.ToNumber (v_timestamp next) - JS.ToNumber (v_timestamp visit)) / 1000.
Proof.
  cbv zeta. do 3 eexists.
  split; [reflexivity|]. split; [reflexivity|]. split; [reflexivity|].
  split; [reflexivity|]. split; [reflexivity|]. discriminate.
Qed.

(** C9, amended.  [getPath()] maps the trajectory, in order, to steps
    whose [order] is 1-based, whose floor and floor name are the
    entry's, and whose duration is the seconds to the next entry
    rounded to the nearest integer
    ([Math.round((next.timestamp - entry.timestamp) / 1000)]), and 0
    for the last entry. *)
Theorem getPath_steps (d : Data) (i : nat) (visit : Visit) :
  trajectory d !! i = Some visit ->
  length (getPath d) = length (trajectory d) /\
  exists step,
    getPath d !! i = Some step /\
    ps_order step = (i + 1)%nat /\
    ps_floor step = v_floor visit /\
    ps_floorName step = getFloorName (v_floor visit) /\
    ps_duration step =
      match trajectory d !! (i + 1)%nat with
      | Some next =>
          JS.Math_round
            ((JS.ToNumber (v_timestamp next) -
              JS.ToNumber (v_timestamp visit)) / 1000)
      | None => JS.of_Z 0
      end.
Proof.
  intros H. unfold getPath. split; [apply length_imap|].
  rewrite list_lookup_imap, H. cbn [fmap option_fmap option_map].
  eexists. split; [reflexivity|]. cbn.
  repeat split. destruct (trajectory d !! (i + 1)%nat); reflexivity.
Qed.

Lemma getPath_steps_witness :
  let d := run up_down empty in
  trajectory d !! 0%nat = Some (mkVisit 1 (Num 1000) 0) /\
  exists step,
    getPath d !! 0%nat = Some step /\ ps_order step = 1%nat /\
    ps_duration step = Fin 2.
Proof.
  cbv zeta. split; [reflexivity|].
  destruct (getPath_steps (run up_down empty) 0 (mkVisit 1 (Num 1000) 0)
              eq_refl) as (_ & step & H1 & H2 & _ & _ & H5).
  exists step. split; [exact H1|]. split; [exact H2|]. exact H5.
Defined.

End Path.

(** ** Ties in [getWorkflowAnalysis] (C10) *)

Section Stability.

Context {A : Type}.
Variable comparefn : A -> A -> JS.num.

Local Open Scope js_scope.

Lemma precedes_lookup (l : list A) (i j : nat) (a b : A) :
  l !! i = Some a -> l !! j = Some b -> (i < j)%nat -> precedes a b l.
Proof.
  revert i j. induction l as [|y l IH]; intros i j Ha Hb Hij; [discriminate|].
  destruct j as [|j]; [lia|]. cbn in Hb. destruct i as [|i]; cbn in Ha.
  - left. split; [congruence|]. apply list_elem_of_lookup. eauto.
  - right. apply (IH i j); [assumption .. | lia].
Qed.

Lemma precedes_split (l : list A) (a b : A) :
  precedes a b l -> exists l1 l2 l3, l = l1 ++ a :: l2 ++ b :: l3.
Proof.
  induction l as [|y l IH]; [intros []|].
  intros [[-> Hb]|H].
  - apply list_elem_of_split in Hb. destruct Hb as (l2 & l3 & ->).
    exists [], l2, l3. reflexivity.
  - destruct (IH H) as (l1 & l2 & l3 & ->).
    exists (y :: l1), l2, l3. reflexivity.
Qed.

Lemma precedes_filter (f : A -> bool) (l : list A) (a b : A) :
  f a = true -> f b = true -> precedes a b l ->
  precedes a b (List.filter f l).
Proof.
  intros Ha Hb. induction l as [|y l IH]; [intros []|].
  intros [[-> Hin]|H]; cbn [List.filter].
  - rewrite Ha. left. split; [reflexivity|].
    apply list_elem_of_In, filter_In. split; [|exact Hb].
    apply list_elem_of_In. exact Hin.
  - destruct (f y); [right|]; apply IH, H.
Qed.

Lemma sort_insert_elem (x b : A) (l : list A) :
  b ∈ l -> b ∈ sort_insert comparefn x l.
Proof.
  induction l as [|y l IH]; [intros H; inversion H|].
  intros H. cbn [sort_insert]. destruct (comparefn x y >? 0).
  - apply elem_of_cons in H. destruct H as [->|H].
    + left.
    + right. apply IH, H.
  - right. exact H.
Qed.

Lemma Array_sort_elem (b : A) (l : list A) :
  b ∈ l -> b ∈ Array_sort comparefn l.
Proof.
  induction l as [|y l IH]; [intros H; inversion H|].
  intros H. cbn [Array_sort foldr]. apply elem_of_cons in H.
  destruct H as [->|H].
  - clear IH. fold (Array_sort comparefn l).
    induction (Array_sort comparefn l) as [|z s IHs]; cbn [sort_insert].
    + left.
    + destruct (comparefn y z >? 0); [right; exact IHs | left].
  - apply sort_insert_elem, IH, H.
Qed.

(** An inserted element lands before everything it need not go behind. *)
Lemma sort_insert_before (a b : A) (l : list A) :
  (comparefn a b >? 0) = false -> b ∈ l ->
  precedes a b (sort_insert comparefn a l).
Proof.
  intros Hab. induction l as [|y l IH]; [intros H; inversion H|].
  intros H. cbn [sort_insert]. destruct (comparefn a y >? 0) eqn:E.
  - right. apply IH. apply elem_of_cons in H. destruct H as [->|H].
    + congruence.
    + exact H.
  - left. split; [reflexivity | exact H].
Qed.

(** Inserting another element keeps two elements in their order. *)
Lemma sort_insert_keeps (x a b : A) (l : list A) :
  precedes a b l -> precedes a b (sort_insert comparefn x l).
Proof.
  induction l as [|y l IH]; [intros []|].
  intros H. cbn [sort_insert]. destruct (comparefn x y >? 0).
  - destruct H as [[-> Hb]|H].
    + left. split; [reflexivity|]. apply sort_insert_elem, Hb.
    + right. apply IH, H.
  - right. exact H.
Qed.

(** The sort is stable: two elements that need not be swapped keep their
    order. *)
Lemma Array_sort_stable (a b : A) (l : list A) :
  (comparefn a b >? 0) = false -> precedes a b l ->
  precedes a b (Array_sort comparefn l).
Proof.
  intros Hab. induction l as [|y l IH]; [intros []|].
  intros [[-> Hb]|H]; cbn [Array_sort foldr]; fold (Array_sort comparefn l).
  - apply sort_insert_before; [exact Hab|]. apply Array_sort_elem, Hb.
  - apply sort_insert_keeps, IH, H.
Qed.

End Stability.

Section Workflow.

Local Open Scope js_scope.

Lemma gt_zero_strict_eq (a b : JS.num) :
  (a === b) = true -> (a >? 0) = true -> (b >? 0) = true.
Proof.
  destruct a as [| | |p], b as [| | |q]; cbn [JS.strict_eq]; try discriminate;
    try (intros _ H; exact H).
  intros E H. apply Qeq_bool_iff in E. apply gt_zero_Fin in H.
  apply gt_zero_Fin. lra.
Qed.

Lemma tie_not_swapped (a b : JS.num) :
  (a === b) = true -> (b - a >? 0) = false.
Proof.
  destruct a as [| | |p], b as [| | |q]; cbn [JS.strict_eq]; try discriminate;
    try reflexivity.
  intros E. apply Qeq_bool_iff in E. cbn [JS.sub].
  apply gt_zero_Fin_false. rewrite Qred_correct. lra.
Qed.

Lemma getVerticalHeatmap_floor_at (d : Data) (i : nat) (s : FloorStats) :
  getVerticalHeatmap d !! i = Some s -> fs_floor s = JS.of_Z (Z.of_nat i).
Proof.
  intros H. destruct (getVerticalHeatmap_keys d) as [Hf _].
  assert (Hi : (fs_floor <$> getVerticalHeatmap d) !! i = Some (fs_floor s)).
  { rewrite list_lookup_fmap, H. reflexivity. }
  rewrite Hf in Hi. unfold floorVisits_init in Hi.
  rewrite <- list_fmap_compose, list_lookup_fmap in Hi.
  destruct (seq 0 13 !! i) as [n|] eqn:En; [|discriminate].
  apply lookup_seq in En. destruct En as [-> _].
  cbn in Hi. congruence.
Qed.

(** C10.  When two floors have equal positive accumulated durations,
    [getWorkflowAnalysis()] lists the lower floor before the higher one:
    the sort by descending duration is stable and starts from the
    ascending floor order of [getVerticalHeatmap()]. *)
Theorem getWorkflowAnalysis_ties_ascending
    (d : Data) (i j : nat) (si sj : FloorStats) :
  getVerticalHeatmap d !! i = Some si ->
  getVerticalHeatmap d !! j = Some sj ->
  (i < j)%nat ->
  (fs_duration si === fs_duration sj) = true ->
  (fs_duration si >? 0) = true ->
  fs_floor si = JS.of_Z (Z.of_nat i) /\
  fs_floor sj = JS.of_Z (Z.of_nat j) /\
  exists l1 l2 l3, getWorkflowAnalysis d = l1 ++ si :: l2 ++ sj :: l3.
Proof.
  intros Hi Hj Hij Heq Hpos.
  split; [exact (getVerticalHeatmap_floor_at d i si Hi)|].
  split; [exact (getVerticalHeatmap_floor_at d j sj Hj)|].
  apply precedes_split. unfold getWorkflowAnalysis.
  apply Array_sort_stable; [apply tie_not_swapped, Heq|].
  apply precedes_filter.
  - exact Hpos.
  - exact (gt_zero_strict_eq _ _ Heq Hpos).
  - exact (precedes_lookup _ i j si sj Hi Hj Hij).
Qed.

(** One second on floor 1, then one second on floor 0: floor 0 is listed
    first. *)
Lemma getWorkflowAnalysis_ties_ascending_witness :
  let d := run [mkCall (Num 0) (Num 0) (Num 3) (Num 0);
                mkCall (Num 0) (Num 0) (Num (Fin (-3))) (Num 1000);
                mkCall (Num 0) (Num 0) (Num 3) (Num 2000)] empty in
  map fs_duration (firstn 2 (getVerticalHeatmap d)) = [Fin 1; Fin 1] /\
  exists l1 l2 l3,
    getWorkflowAnalysis d =
      l1 ++ mkFloorStats 0 CarTop 1 1 (Num 1000) ::
      l2 ++ mkFloorStats 1 (FloorN 1) 1 2 (Num 2000) :: l3.
Proof.
  cbv zeta. split; [reflexivity|].
  apply (getWorkflowAnalysis_ties_ascending
           (run [mkCall (Num 0) (Num 0) (Num 3) (Num 0);
                 mkCall (Num 0) (Num 0) (Num (Fin (-3))) (Num 1000);
                 mkCall (Num 0) (Num 0) (Num 3) (Num 2000)] empty)
           0 1
           (mkFloorStats 0 CarTop 1 1 (Num 1000))
           (mkFloorStats 1 (FloorN 1) 1 2 (Num 2000)));
    [reflexivity | reflexivity | apply Nat.lt_0_1 | reflexivity | reflexivity].
Defined.

End Workflow.

(** ** [getWorkflowAnalysis] lists durations in descending order *)

Section Descending.

Local Open Scope js_scope.

Lemma sort_insert_Forall {A : Type} (cmp : A -> A -> JS.num) (P : A -> Prop)
    (x : A) (l : list A) :
  P x -> Forall P l -> Forall P (sort_insert cmp x l).
Proof.
  intros Hx. induction l as [|y l IH]; intros Hl; cbn [sort_insert].
  - constructor; [exact Hx | constructor].
  - inversion Hl as [|? ? Hy Hl']; subst. destruct (cmp x y >? 0).
    + constructor; [exact Hy | apply IH, Hl'].
    + constructor; [exact Hx | exact Hl].
Qed.

Lemma Array_sort_Forall {A : Type} (cmp : A -> A -> JS.num) (P : A -> Prop)
    (l : list A) :
  Forall P l -> Forall P (Array_sort cmp l).
Proof.
  induction l as [|y l IH]; intros Hl; [constructor|].
  inversion Hl; subst. cbn [Array_sort foldr].
  apply sort_insert_Forall; [assumption | apply IH; assumption].
Qed.

Lemma ge_of_swapped (p q : JS.num) :
  (q - p >? 0) = true -> (q >=? p) = true.
Proof.
  unfold JS.gt, JS.ge. destruct p as [| | |p], q as [| | |q]; cbn [JS.sub];
    try discriminate; try reflexivity.
  intros H. apply lt_Fin in H. rewrite Qred_correct in H.
  apply le_Fin. unfold inject_Z in H. lra.
Qed.

Lemma ge_of_kept (p q : JS.num) :
  (p >? 0) = true -> (q >? 0) = true ->
  (q - p >? 0) = false -> (p >=? q) = true.
Proof.
  unfold JS.gt, JS.ge. destruct p as [| | |p], q as [| | |q]; cbn [JS.sub];
    try discriminate; try reflexivity.
  intros _ _ H. apply lt_Fin_false in H. rewrite Qred_correct in H.
  apply le_Fin. unfold inject_Z in H. lra.
Qed.

Lemma ge_trans (p q r : JS.num) :
  (p >=? q) = true -> (q >=? r) = true -> (p >=? r) = true.
Proof.
  unfold JS.ge. destruct p as [| | |p], q as [| | |q], r as [| | |r];
    try discriminate; try reflexivity.
  rewrite !le_Fin. lra.
Qed.

Variable A : Type.
Variable key : A -> JS.num.

Local Abbreviation by_key_descending := (fun a b : A => key b - key a).
Local Abbreviation positive := (fun a : A => (key a >? 0) = true).
Local Abbreviation ge_key := (fun a b : A => (key a >=? key b) = true).

Lemma sort_insert_descending (x : A) (l : list A) :
  (key x >? 0) = true -> Forall positive l -> StronglySorted ge_key l ->
  StronglySorted ge_key (sort_insert by_key_descending x l).
Proof.
  intros Hx. induction l as [|y l IH]; intros Hp Hs; cbn [sort_insert].
  - repeat constructor.
  - inversion Hp as [|? ? Hy Hp']; subst.
    apply StronglySorted_inv in Hs. destruct Hs as [Hs Hyl].
    cbv beta.
    destruct (key y - key x >? 0) eqn:E.
    + constructor; [apply IH; assumption|].
      apply sort_insert_Forall; [|exact Hyl].
      apply ge_of_swapped, E.
    + assert (Hxy : (key x >=? key y) = true) by (apply ge_of_kept; assumption).
      constructor; [constructor; assumption|].
      constructor; [exact Hxy|].
      eapply Forall_impl; [exact Hyl|].
      intros z Hz. exact (ge_trans _ _ _ Hxy Hz).
Qed.

Lemma Array_sort_descending (l : list A) :
  Forall positive l ->
  StronglySorted ge_key (Array_sort by_key_descending l).
Proof.
  induction l as [|y l IH]; intros Hp; [constructor|].
  inversion Hp; subst. cbn [Array_sort foldr].
  apply sort_insert_descending; [assumption | | apply IH; assumption].
  apply Array_sort_Forall. assumption.
Qed.

End Descending.

(** The floors [getWorkflowAnalysis()] lists have positive durations, each
    at least the duration of every floor listed after it. *)
Lemma getWorkflowAnalysis_descending (d : Data) :
  Forall (fun s => (fs_duration s >? 0)%js = true) (getWorkflowAnalysis d) /\
  StronglySorted (fun a b => (fs_duration a >=? fs_duration b)%js = true)
                 (getWorkflowAnalysis d).
Proof.
  unfold getWorkflowAnalysis.
  assert (H : Forall (fun s => (fs_duration s >? 0)%js = true)
                (List.filter (fun f => (fs_duration f >? 0)%js)
                             (getVerticalHeatmap d))).
  { apply Forall_forall. intros s Hs.
    apply list_elem_of_In, filter_In in Hs. apply Hs. }
  split.
  - apply Array_sort_Forall, H.
  - apply (Array_sort_descending FloorStats fs_duration), H.
Qed.

(** * Further properties of the engine *)

(** ** Counting samples and floor changes *)

Section Counting.

Local Open Scope js_scope.

Lemma feed_points_length (d : Data) (c : Call) :
  length (points (feed d c)) = S (length (points d)).
Proof.
  destruct (feed_cases d c) as [-> _]. rewrite length_app. cbn. lia.
Qed.

Lemma feed_trajectory_length (d : Data) (c : Call) :
  (length (trajectory d) <= length (trajectory (feed d c))
   <= S (length (trajectory d)))%nat.
Proof.
  destruct (feed_cases d c) as [_ [(_ & _ & ->)|(_ & _ & ->)]].
  - lia.
  - rewrite length_app. cbn. lia.
Qed.

Lemma run_points_length (cs : list Call) (d : Data) :
  length (points (run cs d)) = (length (points d) + length cs)%nat.
Proof.
  induction cs as [|c cs IH] using rev_ind.
  - cbn. lia.
  - rewrite run_snoc, feed_points_length, IH, length_app. cbn. lia.
Qed.

Lemma run_trajectory_length (cs : list Call) (d : Data) :
  (length (trajectory d) <= length (trajectory (run cs d))
   <= length (trajectory d) + length cs)%nat.
Proof.
  induction cs as [|c cs IH] using rev_ind.
  - cbn. lia.
  - rewrite run_snoc, length_app. cbn [length].
    pose proof (feed_trajectory_length (run cs d) c). lia.
Qed.

(** Every call records its sample: [totalPoints] is what the session held
    before plus the number of calls, so on a fresh engine the number of
    [addPoint] calls made. *)
Theorem getSummary_totalPoints_counts_calls (cs : list Call) (d : Data) :
  totalPoints (getSummary (run cs d)) =
    (totalPoints (getSummary d) + length cs)%nat /\
  totalPoints (getSummary (run cs empty)) = length cs.
Proof.
  cbn [getSummary totalPoints]. rewrite !run_points_length. split; reflexivity.
Qed.

(** A call pushes at most one trajectory entry: a fresh engine never
    holds more entries than it was fed samples, and [getPath] has as many
    steps as there are entries. *)
Theorem trajectory_at_most_one_entry_per_call (cs : list Call) :
  (totalFloors (getSummary (run cs empty)) <=
   totalPoints (getSummary (run cs empty)))%nat /\
  (length (getPath (run cs empty)) <= length cs)%nat.
Proof.
  pose proof (run_trajectory_length cs empty) as H. cbn [empty trajectory length] in H.
  split.
  - cbn [getSummary totalFloors totalPoints]. rewrite run_points_length.
    cbn [empty points length]. lia.
  - unfold getPath. rewrite length_imap. lia.
Qed.

End Counting.

(** ** The summary's floors *)

Section SummaryFloors.

Local Open Scope js_scope.

Lemma run_currentFloor_last (cs : list Call) :
  currentFloor (run cs empty) =
    match last (trajectory (run cs empty)) with
    | Some v => v_floor v
    | None => JS.of_Z 0
    end.
Proof.
  induction cs as [|c cs IH] using rev_ind; [reflexivity|].
  rewrite run_snoc.
  destruct (feed_cases (run cs empty) c) as [_ [(_ & -> & ->)|(_ & -> & ->)]].
  - exact IH.
  - rewrite last_snoc. reflexivity.
Qed.

Lemma run_first_floor_not_zero (cs : list Call) (v : Visit) :
  head (trajectory (run cs empty)) = Some v -> (v_floor v === 0) = false.
Proof.
  revert v. induction cs as [|c cs IH] using rev_ind; intros v; [discriminate|].
  rewrite run_snoc.
  destruct (feed_cases (run cs empty) c) as [_ [(_ & _ & ->)|(E & _ & ->)]].
  - apply IH.
  - pose proof (run_currentFloor_last cs) as Hc.
    destruct (trajectory (run cs empty)) as [|v0 rest].
    + cbn. intros [= <-]. cbn [v_floor]. cbn [last] in Hc. rewrite Hc in E.
      exact E.
    + cbn. intros [= <-]. apply IH. reflexivity.
Qed.

Lemma at_index_first {A : Type} (xs : list A) : at_index xs 0 = head xs.
Proof. unfold at_index. cbn. symmetry. apply head_lookup. Qed.

Lemma at_index_last {A : Type} (xs : list A) :
  at_index xs (Z.of_nat (length xs) - 1) = last xs.
Proof.
  unfold at_index. destruct xs as [|x xs]; [reflexivity|].
  cbn [length]. destruct (Z.ltb_spec (Z.of_nat (S (length xs)) - 1) 0); [lia|].
  rewrite last_lookup. f_equal. cbn. lia.
Qed.

Lemma or_zero_floor (n : JS.num) : is_floor n -> JS.or_zero (Num n) = n.
Proof.
  intros (k & _ & ->). destruct k; reflexivity.
Qed.

(** The current floor is the floor of the most recent trajectory entry,
    and 0 while there is none. *)
Theorem currentFloor_is_last_entry (cs : list Call) :
  currentFloor (run cs empty) =
    match last (trajectory (run cs empty)) with
    | Some v => v_floor v
    | None => JS.of_Z 0
    end.
Proof. apply run_currentFloor_last. Qed.

(** [endFloor] is the current floor with [NaN] replaced by 0: the current
    floor itself as long as every [z] was a number. *)
Theorem getSummary_endFloor_is_currentFloor (cs : list Call) :
  endFloor (getSummary (run cs empty)) =
    JS.or_zero (Num (currentFloor (run cs empty))) /\
  (Forall numeric_z cs ->
   endFloor (getSummary (run cs empty)) = currentFloor (run cs empty)).
Proof.
  assert (H : endFloor (getSummary (run cs empty)) =
              JS.or_zero (Num (currentFloor (run cs empty)))).
  { cbn [getSummary endFloor]. rewrite at_index_last, run_currentFloor_last.
    destruct (last (trajectory (run cs empty))); reflexivity. }
  split; [exact H|]. intros Hz. rewrite H.
  apply or_zero_floor. apply (run_is_floor cs Hz).
Qed.

Lemma getSummary_endFloor_is_currentFloor_witness :
  let cs := [mkCall (Num 0) (Num 0) (Num 12) (Num 1000);
             mkCall (Num 0) (Num 0) (Num 1) (Num 2000)] in
  Forall numeric_z cs /\
  endFloor (getSummary (run cs empty)) = JS.of_Z 2.
Proof.
  cbv zeta.
  assert (Hz : Forall numeric_z
                 [mkCall (Num 0) (Num 0) (Num 12) (Num 1000);
                  mkCall (Num 0) (Num 0) (Num 1) (Num 2000)]).
  { repeat constructor; discriminate. }
  split; [exact Hz|].
  rewrite (proj2 (getSummary_endFloor_is_currentFloor _) Hz). reflexivity.
Defined.

(** The trajectory never records the floor the session starts on: fed
    numbers only, [startFloor] is 0 exactly while the trajectory is empty,
    and otherwise the floor of the first change, between 1 and 12. *)
Theorem getSummary_startFloor_is_first_change (cs : list Call) :
  Forall numeric_z cs ->
  (trajectory (run cs empty) = [] /\
   startFloor (getSummary (run cs empty)) = JS.of_Z 0)
  \/
  (exists v k,
     head (trajectory (run cs empty)) = Some v /\
     (1 <= k <= 12)%Z /\
     v_floor v = JS.of_Z k /\
     startFloor (getSummary (run cs empty)) = JS.of_Z k).
Proof.
  intros Hz. cbn [getSummary startFloor]. rewrite at_index_first.
  destruct (head (trajectory (run cs empty))) as [v|] eqn:Hh.
  - right. pose proof (run_first_floor_not_zero cs v Hh) as Hn.
    destruct (run_is_floor cs Hz) as [_ Hf]. rewrite Forall_forall in Hf.
    assert (Hv : is_floor (v_floor v)).
    { apply Hf. destruct (trajectory (run cs empty)); [discriminate|].
      cbn in Hh. injection Hh as ->. left. }
    pose proof (or_zero_floor _ Hv) as Ho.
    destruct Hv as (k & Hk & Ek). exists v, k.
    split; [reflexivity|]. split.
    + rewrite Ek in Hn. destruct k; try lia. discriminate Hn.
    + split; [exact Ek|]. cbn [floor_or_zero]. rewrite Ho. exact Ek.
  - left. split; [|reflexivity].
    destruct (trajectory (run cs empty)); [reflexivity | discriminate].
Qed.

Lemma getSummary_startFloor_is_first_change_witness :
  let cs := [mkCall (Num 0) (Num 0) (Num 12) (Num 1000);
             mkCall (Num 0) (Num 0) (Num (Fin (-12))) (Num 2000)] in
  Forall numeric_z cs /\
  currentFloor (run cs empty) = JS.of_Z 0 /\
  startFloor (getSummary (run cs empty)) = JS.of_Z 2.
Proof.
  cbv zeta.
  assert (Hz : Forall numeric_z
                 [mkCall (Num 0) (Num 0) (Num 12) (Num 1000);
                  mkCall (Num 0) (Num 0) (Num (Fin (-12))) (Num 2000)]).
  { repeat constructor; discriminate. }
  split; [exact Hz|]. split; [reflexivity|].
  destruct (getSummary_startFloor_is_first_change _ Hz)
    as [[H _]|(v & k & Hh & _ & Hv & ->)].
  - discriminate H.
  - rewrite <- Hv. cbn in Hh. injection Hh as <-. reflexivity.
Defined.

End SummaryFloors.

(** ** Distinct floors *)

Section DistinctFloors.

Local Open Scope js_scope.

Lemma fold_Set_add_length (xs seen : list JS.num) :
  (length seen <= length (fold_left Set_add xs seen)
   <= length seen + length xs)%nat.
Proof.
  revert seen. induction xs as [|x xs IH]; intros seen; cbn [fold_left length].
  - lia.
  - specialize (IH (Set_add seen x)). unfold Set_add in *.
    destruct (existsb (JS.same_value x) seen); [lia|].
    rewrite length_app in IH. cbn [length] in IH. lia.
Qed.

Lemma Set_add_nonempty (seen : list JS.num) (x : JS.num) :
  (0 < length (Set_add seen x))%nat.
Proof.
  unfold Set_add. destruct (existsb (JS.same_value x) seen) eqn:E.
  - destruct seen; [discriminate E | cbn; lia].
  - rewrite length_app. cbn. lia.
Qed.

(** [floorsVisited] never exceeds [totalFloors], and is 0 only for an
    empty trajectory. *)
Theorem getSummary_floorsVisited_bounds (d : Data) :
  (floorsVisited (getSummary d) <= totalFloors (getSummary d))%nat /\
  (floorsVisited (getSummary d) = 0%nat <-> trajectory d = []).
Proof.
  cbn [getSummary floorsVisited totalFloors]. unfold Set_of.
  pose proof (fold_Set_add_length (map v_floor (trajectory d)) []) as H.
  rewrite length_map in H. cbn [length] in H. split; [lia|].
  destruct (trajectory d) as [|v rest]; [split; reflexivity|].
  split; [|discriminate]. cbn [map fold_left]. intros H0. exfalso.
  pose proof (fold_Set_add_length (map v_floor rest) (Set_add [] (v_floor v)))
    as H1.
  pose proof (Set_add_nonempty [] (v_floor v)). lia.
Qed.

Lemma same_value_floor (a b : JS.num) :
  is_floor a -> a = b -> JS.same_value a b = true.
Proof.
  intros (k & _ & ->) <-. cbn. apply Qeq_bool_refl.
Qed.

Lemma fold_Set_add_NoDup (xs seen : list JS.num) :
  Forall is_floor xs -> Forall is_floor seen -> NoDup seen ->
  NoDup (fold_left Set_add xs seen) /\
  Forall is_floor (fold_left Set_add xs seen).
Proof.
  revert seen. induction xs as [|x xs IH]; intros seen Hx Hs Hn;
    cbn [fold_left]; [auto|].
  inversion Hx as [|? ? Hx0 Hxs]; subst. apply IH; [exact Hxs | |];
    unfold Set_add; destruct (existsb (JS.same_value x) seen) eqn:E;
    try assumption.
  - apply Forall_app. split; [exact Hs | constructor; [exact Hx0 | constructor]].
  - apply NoDup_app. split; [exact Hn|]. split; [|apply NoDup_singleton].
    intros y Hy Hy'. apply list_elem_of_singleton in Hy'. subst y.
    assert (existsb (JS.same_value x) seen = true); [|congruence].
    apply existsb_exists. exists x. split.
    + apply list_elem_of_In. exact Hy.
    + apply same_value_floor; [exact Hx0 | reflexivity].
Qed.

Lemma floors_at_most_13 (l : list JS.num) :
  NoDup l -> Forall is_floor l -> (length l <= 13)%nat.
Proof.
  intros Hn Hf.
  change 13%nat with
    (length (map JS.of_Z [0; 1; 2; 3; 4; 5; 6; 7; 8; 9; 10; 11; 12]%Z)).
  apply submseteq_length, NoDup_submseteq; [exact Hn|].
  intros a Ha. rewrite Forall_forall in Hf.
  destruct (Hf a Ha) as (k & Hk & ->).
  apply list_elem_of_fmap. exists k. split; [reflexivity|].
  assert (k = 0 \/ k = 1 \/ k = 2 \/ k = 3 \/ k = 4 \/ k = 5 \/ k = 6 \/ k = 7 \/
          k = 8 \/ k = 9 \/ k = 10 \/ k = 11 \/ k = 12)%Z as Hk' by lia.
  repeat (destruct Hk' as [->|Hk']; [repeat constructor|]).
  subst k. repeat constructor.
Qed.

(** Fed numbers only, a session visits at most 13 distinct floors however
    long its trajectory grows. *)
Theorem getSummary_floorsVisited_at_most_13 (cs : list Call) :
  Forall numeric_z cs ->
  (floorsVisited (getSummary (run cs empty)) <= 13)%nat.
Proof.
  intros Hz. cbn [getSummary floorsVisited]. unfold Set_of.
  destruct (run_is_floor cs Hz) as [_ Hf].
  assert (Hm : Forall is_floor (map v_floor (trajectory (run cs empty)))).
  { apply Forall_fmap. exact Hf. }
  destruct (fold_Set_add_NoDup _ [] Hm) as [Hn Hfl];
    [constructor | constructor |].
  apply floors_at_most_13; assumption.
Qed.

Lemma getSummary_floorsVisited_at_most_13_witness :
  let cs := [mkCall (Num 0) (Num 0) (Num 3) (Num 0);
             mkCall (Num 0) (Num 0) (Num (Fin (-3))) (Num 1000);
             mkCall (Num 0) (Num 0) (Num 3) (Num 2000)] in
  Forall numeric_z cs /\
  totalFloors (getSummary (run cs empty)) = 3%nat /\
  floorsVisited (getSummary (run cs empty)) = 2%nat /\
  (floorsVisited (getSummary (run cs empty)) <= 13)%nat.
Proof.
  cbv zeta.
  assert (Hz : Forall numeric_z
                 [mkCall (Num 0) (Num 0) (Num 3) (Num 0);
                  mkCall (Num 0) (Num 0) (Num (Fin (-3))) (Num 1000);
                  mkCall (Num 0) (Num 0) (Num 3) (Num 2000)]).
  { repeat constructor; discriminate. }
  split; [exact Hz|]. split; [reflexivity|]. split; [reflexivity|].
  apply (getSummary_floorsVisited_at_most_13 _ Hz).
Defined.

End DistinctFloors.

(** ** What the session records of its input *)

Section Recording.

Local Open Scope js_scope.

Lemma or_zero_not_nan (v : JS.value) : JS.or_zero v <> NaN.
Proof.
  destruct v as [| |[| | |q]]; try discriminate.
  unfold JS.or_zero. cbn [JS.truthy JS.truthy_num JS.ToNumber].
  destruct (negb (JS.is_zero q)); discriminate.
Qed.

(** [points] is the log of the calls in arrival order: one point per
    call, holding the call's timestamp and its [x], [y], [z] after
    [|| 0]; no stored coordinate is ever [NaN]. *)
Theorem points_log_the_calls (cs : list Call) :
  map (fun p => (p_x p, p_y p, p_z p, p_timestamp p)) (points (run cs empty)) =
    map (fun c => (JS.or_zero (c_x c), JS.or_zero (c_y c), JS.or_zero (c_z c),
                   c_timestamp c)) cs /\
  Forall (fun p => p_x p <> NaN /\ p_y p <> NaN /\ p_z p <> NaN)
         (points (run cs empty)).
Proof.
  induction cs as [|c cs [IH1 IH2]] using rev_ind.
  - split; [reflexivity | constructor].
  - rewrite run_snoc.
    destruct (feed_cases (run cs empty) c) as [-> _].
    rewrite !map_app, IH1. split; [reflexivity|].
    apply Forall_app. split; [exact IH2|].
    constructor; [|constructor]. cbn [addPoint snd p_x p_y p_z].
    repeat split; apply or_zero_not_nan.
Qed.

(** Trajectory entries are pushed in arrival order with the timestamp of
    the call that made them and a [duration] field of 0 that nothing
    updates. *)
Theorem trajectory_entries_stamped_by_calls (cs : list Call) :
  sublist (map v_timestamp (trajectory (run cs empty))) (map c_timestamp cs) /\
  Forall (fun v => v_duration v = JS.of_Z 0) (trajectory (run cs empty)).
Proof.
  induction cs as [|c cs [IH1 IH2]] using rev_ind.
  - split; [apply sublist_nil_l | constructor].
  - rewrite run_snoc, map_app.
    destruct (feed_cases (run cs empty) c) as [_ [(_ & _ & ->)|(_ & _ & ->)]].
    + split; [|exact IH2]. apply sublist_inserts_r. exact IH1.
    + rewrite map_app. split.
      * apply sublist_app; [exact IH1 | reflexivity].
      * apply Forall_app. split; [exact IH2 | repeat constructor].
Qed.

(** A [NaN] current floor never recovers: from such a session every
    further call, whatever its arguments, leaves the current floor [NaN]
    and pushes one more trajectory entry. *)
Theorem nan_floor_is_absorbing (d : Data) (cs : list Call) :
  currentFloor d = NaN ->
  currentFloor (run cs d) = NaN /\
  length (trajectory (run cs d)) = (length (trajectory d) + length cs)%nat.
Proof.
  intros Hd. induction cs as [|c cs [IH1 IH2]] using rev_ind.
  - split; [exact Hd | cbn; lia].
  - rewrite run_snoc.
    pose proof (detectFloor_from_nan (run cs d) (c_z c) IH1) as Hf.
    destruct (feed_cases (run cs d) c) as [_ [(E & _)|(_ & -> & ->)]].
    + rewrite Hf in E. discriminate E.
    + split; [exact Hf|]. rewrite !length_app, IH2. cbn. lia.
Qed.

Lemma nan_floor_is_absorbing_witness :
  let d := run [mkCall (Num 0) (Num 0) Undefined (Num 1000)] empty in
  let cs := [mkCall (Num 0) (Num 0) (Num 0) (Num 2000);
             mkCall (Num 0) (Num 0) (Num 6) (Num 3000)] in
  currentFloor d = NaN /\
  currentFloor (run cs d) = NaN /\
  length (trajectory (run cs d)) = 3%nat.
Proof.
  cbv zeta. split; [reflexivity|].
  apply (nan_floor_is_absorbing
           (run [mkCall (Num 0) (Num 0) Undefined (Num 1000)] empty)
           [mkCall (Num 0) (Num 0) (Num 0) (Num 2000);
            mkCall (Num 0) (Num 0) (Num 6) (Num 3000)]).
  reflexivity.
Defined.

End Recording.

(** ** Samples that change nothing *)

Section NoChange.

Local Open Scope js_scope.

Lemma strict_eq_of_Z (a b : Z) : (JS.of_Z a === JS.of_Z b) = (a =? b)%Z.
Proof.
  unfold JS.of_Z. cbn [JS.strict_eq]. unfold Qeq_bool, inject_Z; cbn [Qnum Qden].
  rewrite !Z.mul_1_r. reflexivity.
Qed.

Lemma floor_steps_zero (q : Q) : (Qabs q < 3)%Q -> floor_steps q = 0%Z.
Proof.
  intros H. pose proof (floor_steps_nonneg q) as H0.
  pose proof (Qabs_nonneg q) as Ha.
  assert (H1 : (floor_steps q < 1)%Z); [|lia].
  unfold floor_steps in *.
  rewrite Zlt_Qlt.
  eapply Qle_lt_trans; [apply Qfloor_le|].
  unfold inject_Z. unfold Qdiv.
  assert (Qabs q * 500 * / 1000 * / 3 == Qabs q * (1 # 6))%Q as -> by field.
  lra.
Qed.

Lemma floor_steps_positive (q : Q) : (3 <= Qabs q)%Q -> (1 <= floor_steps q)%Z.
Proof.
  intros H. unfold floor_steps.
  apply (Z.le_trans _ (Qfloor 1)); [reflexivity|]. apply Qfloor_resp_le.
  unfold Qdiv.
  assert (Qabs q * 500 * / 1000 * / 3 == Qabs q * (1 # 6))%Q as -> by field.
  lra.
Qed.

Lemma addPoint_same_floor (d : Data) (x y z t : JS.value) :
  detectFloor d z = currentFloor d -> currentFloor d <> NaN ->
  trajectory (fst (addPoint d x y z t)) = trajectory d /\
  currentFloor (fst (addPoint d x y z t)) = currentFloor d.
Proof.
  intros Hd Hn. destruct (feed_cases d (mkCall x y z t)) as [_ Hc].
  unfold feed in Hc. cbn [c_x c_y c_z c_timestamp] in Hc. rewrite Hd in Hc.
  destruct Hc as [(_ & Hc & Ht)|(E & _)]; [auto|].
  rewrite strict_eq_refl in E by exact Hn. discriminate.
Qed.

(** The floor moves only for an acceleration of at least 3 m/s²: with the
    current floor one of the thirteen floors and [|z| < 3], the half
    floor is not reached, [Math.round] gives 0 floors and [addPoint]
    leaves current floor and trajectory as they are (finite values taken
    as exact rationals). *)
Theorem addPoint_below_half_floor (d : Data) (x y t : JS.value) (q : Q) :
  is_floor (currentFloor d) -> (Qabs q < 3)%Q ->
  detectFloor d (Num (Fin q)) = currentFloor d /\
  trajectory (fst (addPoint d x y (Num (Fin q)) t)) = trajectory d /\
  currentFloor (fst (addPoint d x y (Num (Fin q)) t)) = currentFloor d.
Proof.
  intros (k & Hk & E) Hq.
  assert (Hd : detectFloor d (Num (Fin q)) = currentFloor d).
  { destruct (Qlt_le_dec (Qabs q) (1 # 2)) as [Hlt|Hge].
    - apply detectFloor_still, abs_lt_threshold. exact Hlt.
    - rewrite E. destruct (Qlt_le_dec 0 q) as [Hpos|Hneg].
      + rewrite (detectFloor_up d k q E Hge Hpos), (floor_steps_zero q Hq).
        f_equal. lia.
      + rewrite (detectFloor_down d k q E Hge Hneg), (floor_steps_zero q Hq).
        f_equal. lia. }
  split; [exact Hd|]. apply addPoint_same_floor; [exact Hd|].
  rewrite E. discriminate.
Qed.

Lemma addPoint_below_half_floor_witness :
  let d := run [mkCall (Num 0) (Num 0) (Num 12) (Num 1000)] empty in
  is_floor (currentFloor d) /\ (Qabs (29 # 10) < 3)%Q /\
  currentFloor (fst (addPoint d (Num 0) (Num 0) (Num (Fin (29 # 10))) (Num 2000)))
    = JS.of_Z 2.
Proof.
  cbv zeta.
  assert (Hf : is_floor (currentFloor
                 (run [mkCall (Num 0) (Num 0) (Num 12) (Num 1000)] empty))).
  { exists 2%Z. split; [lia | reflexivity]. }
  assert (Hq : (Qabs (29 # 10) < 3)%Q) by reflexivity.
  split; [exact Hf|]. split; [exact Hq|].
  destruct (addPoint_below_half_floor _ (Num 0) (Num 0) (Num 2000) _ Hf Hq)
    as (_ & _ & ->).
  reflexivity.
Defined.

(** From 3 m/s² on the floor does move, unless it is already at the end
    of the shaft: upwards from a floor below 12, downwards from a floor
    above 0, and a trajectory entry is pushed for the new floor. *)
Theorem addPoint_from_half_floor_moves (d : Data) (x y t : JS.value)
    (k : Z) (q : Q) :
  currentFloor d = JS.of_Z k -> (3 <= Qabs q)%Q ->
  ((0 < q)%Q /\ (0 <= k < 12)%Z \/ (q < 0)%Q /\ (0 < k <= 12)%Z) ->
  exists k',
    (0 <= k' <= 12)%Z /\ k' <> k /\
    ((0 < q)%Q -> (k < k')%Z) /\ ((q < 0)%Q -> (k' < k)%Z) /\
    currentFloor (fst (addPoint d x y (Num (Fin q)) t)) = JS.of_Z k' /\
    trajectory (fst (addPoint d x y (Num (Fin q)) t)) =
      trajectory d ++ [mkVisit (JS.of_Z k') t 0].
Proof.
  intros E Hq Hdir.
  pose proof (floor_steps_positive q Hq) as Hs.
  assert (Hge : (1 # 2 <= Qabs q)%Q) by lra.
  assert (Hd : exists k', (0 <= k' <= 12)%Z /\ k' <> k /\
                 ((0 < q)%Q -> (k < k')%Z) /\ ((q < 0)%Q -> (k' < k)%Z) /\
                 detectFloor d (Num (Fin q)) = JS.of_Z k').
  { destruct Hdir as [[Hpos Hk]|[Hneg Hk]].
    - exists (Z.min (k + floor_steps q) 12).
      rewrite (detectFloor_up d k q E Hge Hpos).
      repeat split; try lia. intros; lra.
    - exists (Z.max (k - floor_steps q) 0).
      rewrite (detectFloor_down d k q E Hge) by lra.
      repeat split; try lia. intros; lra. }
  destruct Hd as (k' & Hk' & Hne & Hup & Hdown & Hd).
  exists k'. repeat split; try assumption; try lia.
  - destruct (feed_cases d (mkCall x y (Num (Fin q)) t)) as [_ Hc].
    unfold feed in Hc. cbn [c_x c_y c_z c_timestamp] in Hc.
    rewrite Hd, E in Hc.
    destruct Hc as [(Eq & _)|(_ & Hc & _)]; [|exact Hc].
    rewrite strict_eq_of_Z in Eq. apply Z.eqb_eq in Eq. contradiction.
  - destruct (feed_cases d (mkCall x y (Num (Fin q)) t)) as [_ Hc].
    unfold feed in Hc. cbn [c_x c_y c_z c_timestamp] in Hc.
    rewrite Hd, E in Hc.
    destruct Hc as [(Eq & _)|(_ & _ & Ht)]; [|exact Ht].
    rewrite strict_eq_of_Z in Eq. apply Z.eqb_eq in Eq. contradiction.
Qed.

Lemma addPoint_from_half_floor_moves_witness :
  (3 <= Qabs 3)%Q /\
  exists k',
    (0 < k')%Z /\
    currentFloor (fst (addPoint empty (Num 0) (Num 0) (Num (Fin 3)) (Num 1000)))
      = JS.of_Z k'.
Proof.
  assert (Hq : (3 <= Qabs 3)%Q) by discriminate.
  split; [exact Hq|].
  destruct (addPoint_from_half_floor_moves empty (Num 0) (Num 0) (Num 1000)
              0 3 eq_refl Hq) as (k' & _ & _ & Hup & _ & Hc & _).
  { left. split; [reflexivity | lia]. }
  exists k'. split; [apply Hup; reflexivity | exact Hc].
Defined.

(** At the ends of the shaft the clamp swallows the sample: on floor 12
    no positive [z], however large, and on floor 0 no negative [z]
    changes the current floor or the trajectory. *)
Theorem addPoint_saturates_at_shaft_ends (d : Data) (x y t : JS.value)
    (z : JS.num) :
  currentFloor d = JS.of_Z 12 /\ (z >? 0) = true \/
  currentFloor d = JS.of_Z 0 /\ (z <? 0) = true ->
  trajectory (fst (addPoint d x y (Num z) t)) = trajectory d /\
  currentFloor (fst (addPoint d x y (Num z) t)) = currentFloor d.
Proof.
  intros H.
  assert (Hd : detectFloor d (Num z) = currentFloor d).
  { destruct H as [[E Hz]|[E Hz]]; rewrite E.
    - destruct z as [| | |q]; try discriminate Hz.
      + apply (detectFloor_PInf d 12 E).
      + apply gt_zero_Fin in Hz.
        destruct (Qlt_le_dec (Qabs q) (1 # 2)) as [Hlt|Hge].
        * rewrite <- E. apply detectFloor_still, abs_lt_threshold. exact Hlt.
        * rewrite (detectFloor_up d 12 q E Hge Hz).
          pose proof (floor_steps_nonneg q). f_equal. lia.
    - destruct z as [| | |q]; try discriminate Hz.
      + apply (detectFloor_NInf d 0 E).
      + unfold JS.of_Z in Hz. apply lt_Fin in Hz. unfold inject_Z in Hz.
        destruct (Qlt_le_dec (Qabs q) (1 # 2)) as [Hlt|Hge].
        * rewrite <- E. apply detectFloor_still, abs_lt_threshold. exact Hlt.
        * rewrite (detectFloor_down d 0 q E Hge) by lra.
          pose proof (floor_steps_nonneg q). f_equal. lia. }
  apply addPoint_same_floor; [exact Hd|].
  destruct H as [[-> _]|[-> _]]; discriminate.
Qed.

Lemma addPoint_saturates_at_shaft_ends_witness :
  let d := run [mkCall (Num 0) (Num 0) (Num 100) (Num 1000)] empty in
  currentFloor d = JS.of_Z 12 /\
  trajectory (fst (addPoint d (Num 0) (Num 0) (Num 1000) (Num 2000)))
    = trajectory d.
Proof.
  cbv zeta. split; [reflexivity|].
  apply (addPoint_saturates_at_shaft_ends
           (run [mkCall (Num 0) (Num 0) (Num 100) (Num 1000)] empty)
           (Num 0) (Num 0) (Num 2000) 1000).
  left. split; reflexivity.
Defined.

End NoChange.

(** ** What [getVerticalHeatmap] accumulates per floor *)

Section PerFloor.

Local Open Scope js_scope.

Lemma array_index_spec (n : JS.num) (k : nat) :
  JS.array_index n = Some k <-> (n === JS.of_Z (Z.of_nat k)) = true.
Proof.
  destruct n as [| | |q]; cbn [JS.array_index JS.strict_eq JS.of_Z];
    try (split; discriminate).
  rewrite Qeq_bool_iff. split.
  - destruct (Qeq_bool q (inject_Z (Qfloor q))) eqn:E; [|discriminate].
    destruct (Z.leb_spec 0 (Qfloor q)) as [H0|]; [|discriminate].
    cbn [andb]. intros [= <-]. apply Qeq_bool_iff in E.
    rewrite Z2Nat.id by exact H0. exact E.
  - intros E. assert (Hf : Qfloor q = Z.of_nat k).
    { rewrite (Qfloor_comp _ _ E). apply Qfloor_Z. }
    rewrite Hf. rewrite (proj2 (Qeq_bool_iff q (inject_Z (Z.of_nat k))) E).
    destruct (Z.leb_spec 0 (Z.of_nat k)) as [_|]; [|lia].
    cbn [andb]. rewrite Nat2Z.id. reflexivity.
Qed.

(** One run of the [forEach] callback, seen from floor [k]. *)
Lemma count_visit_at (k : nat) (pre : list Visit) (v : Visit)
    (rest : list Visit) (fv : list FloorStats) (s : FloorStats) :
  fv !! k = Some s ->
  count_visit (pre ++ v :: rest) fv (length pre) v !! k =
    Some (if on_floor k v
          then {| fs_floor := fs_floor s;
                  fs_floorName := fs_floorName s;
                  fs_duration :=
                    match rest with
                    | next :: _ => fs_duration s + visit_gap v next
                    | [] => fs_duration s
                    end;
                  fs_visits := S (fs_visits s);
                  fs_lastVisit := v_timestamp v |}
          else s).
Proof.
  intros Hs. unfold count_visit, on_floor.
  destruct (JS.array_index (v_floor v)) as [k'|] eqn:Ea.
  - destruct (decide (k' = k)) as [->|Hne].
    + rewrite (proj1 (array_index_spec _ _) Ea), Hs.
      assert (Hl : (pre ++ v :: rest) !! (length pre + 1)%nat = head rest).
      { rewrite lookup_app_r by lia.
        replace (length pre + 1 - length pre)%nat with 1%nat by lia.
        cbn. symmetry. apply head_lookup. }
      rewrite Hl, length_app.
      destruct rest as [|next rest']; cbn [length head];
        match goal with
        | |- context [(?a <? ?b)%nat] =>
            destruct (Nat.ltb_spec a b) as [Hlt|Hge]
        end; try lia;
        cbv beta iota zeta; rewrite !list_lookup_alter;
        destruct (decide (k = k)); try congruence;
        rewrite Hs; destruct s; reflexivity.
    + assert (Hf : (v_floor v === JS.of_Z (Z.of_nat k)) = false).
      { destruct (v_floor v === JS.of_Z (Z.of_nat k)) eqn:E; [|reflexivity].
        apply array_index_spec in E. congruence. }
      rewrite Hf. destruct (fv !! k') eqn:Hk'; [|exact Hs].
      destruct (length pre <? _)%nat; [destruct (_ !! (length pre + 1)%nat)|];
        rewrite ?list_lookup_alter_ne by exact Hne; exact Hs.
  - assert (Hf : (v_floor v === JS.of_Z (Z.of_nat k)) = false).
    { destruct (v_floor v === JS.of_Z (Z.of_nat k)) eqn:E; [|reflexivity].
      apply array_index_spec in E. congruence. }
    rewrite Hf. exact Hs.
Qed.

Lemma last_cons_filter (v : Visit) (l : list Visit) (dflt : JS.value) :
  match last (v :: l) with Some w => v_timestamp w | None => dflt end =
  match last l with Some w => v_timestamp w | None => v_timestamp v end.
Proof.
  destruct l as [|v0 l]; [reflexivity|].
  change (last (v :: v0 :: l)) with (last (v0 :: l)).
  destruct (last (v0 :: l)) eqn:E; [reflexivity|].
  apply last_None in E. discriminate.
Qed.

(** The whole [forEach], started anywhere in the trajectory. *)
Lemma forEach_count_visit (k : nat) (suf pre : list Visit)
    (fv : list FloorStats) (s : FloorStats) :
  fv !! k = Some s ->
  exists s',
    forEach_from (count_visit (pre ++ suf)) (length pre) suf fv !! k = Some s' /\
    fs_visits s' =
      (fs_visits s + length (List.filter (on_floor k) suf))%nat /\
    fs_lastVisit s' =
      match last (List.filter (on_floor k) suf) with
      | Some v => v_timestamp v
      | None => fs_lastVisit s
      end /\
    fs_duration s' = fold_left JS.add (dwell_gaps k suf) (fs_duration s).
Proof.
  revert pre fv s. induction suf as [|v rest IH]; intros pre fv s Hs.
  - exists s. cbn. repeat split; [exact Hs | lia].
  - cbn [forEach_from].
    pose proof (count_visit_at k pre v rest fv s Hs) as H1.
    replace (pre ++ v :: rest) with ((pre ++ [v]) ++ rest) in *
      by (rewrite <- app_assoc; reflexivity).
    replace (length pre + 1)%nat with (length (pre ++ [v]))
      by (rewrite length_app; reflexivity).
    destruct (IH (pre ++ [v]) _ _ H1) as (s' & -> & Hv & Hl & Hd).
    exists s'. split; [reflexivity|].
    cbn [List.filter dwell_gaps]. rewrite fold_left_app.
    destruct (on_floor k v) eqn:E.
    + cbn [fs_visits fs_lastVisit fs_duration] in Hv, Hl, Hd.
      split; [cbn [length]; lia|]. split.
      * rewrite Hl. symmetry. apply last_cons_filter.
      * rewrite Hd. destruct rest; reflexivity.
    + split; [exact Hv|]. split; [exact Hl|].
      rewrite Hd. destruct rest; reflexivity.
Qed.

Lemma getVerticalHeatmap_per_floor (d : Data) (k : nat) (s : FloorStats) :
  getVerticalHeatmap d !! k = Some s ->
  fs_visits s = length (List.filter (on_floor k) (trajectory d)) /\
  fs_lastVisit s =
    match last (List.filter (on_floor k) (trajectory d)) with
    | Some v => v_timestamp v
    | None => Null
    end /\
  fs_duration s = fold_left JS.add (dwell_gaps k (trajectory d)) 0.
Proof.
  intros Hs.
  assert (Hk : (k < 13)%nat).
  { apply lookup_lt_Some in Hs.
    destruct (getVerticalHeatmap_keys d) as [Hf _].
    rewrite <- (length_fmap fs_floor), Hf in Hs. exact Hs. }
  assert (H0 : exists s0, floorVisits_init !! k = Some s0 /\
                 fs_visits s0 = 0%nat /\ fs_lastVisit s0 = Null /\
                 fs_duration s0 = JS.of_Z 0).
  { do 13 (destruct k as [|k]; [eexists; split; [reflexivity|]; auto|]). lia. }
  destruct H0 as (s0 & H0 & Hv0 & Hl0 & Hd0).
  destruct (forEach_count_visit k (trajectory d) [] floorVisits_init s0 H0)
    as (s' & Hs' & Hv & Hl & Hd).
  cbn [app length] in Hs'. unfold getVerticalHeatmap in Hs.
  rewrite Hs in Hs'. injection Hs' as <-.
  rewrite Hv, Hl, Hd, Hv0, Hl0, Hd0. auto.
Qed.

End PerFloor.

(** ** Visits, last visit and dwell time of a floor *)

Section Dwell.

Local Open Scope js_scope.

(** For each of the thirteen floors, [visits] is the number of trajectory
    entries on that floor and [lastVisit] the timestamp of the last of
    them, [null] when there is none. *)
Theorem getVerticalHeatmap_counts_visits (d : Data) (k : nat) (s : FloorStats) :
  getVerticalHeatmap d !! k = Some s ->
  fs_visits s = length (List.filter (on_floor k) (trajectory d)) /\
  fs_lastVisit s =
    match last (List.filter (on_floor k) (trajectory d)) with
    | Some v => v_timestamp v
    | None => Null
    end.
Proof.
  intros Hs. destruct (getVerticalHeatmap_per_floor d k s Hs) as (H1 & H2 & _).
  split; assumption.
Qed.

Lemma getVerticalHeatmap_counts_visits_witness :
  let d := run [mkCall (Num 0) (Num 0) (Num 3) (Num 0);
                mkCall (Num 0) (Num 0) (Num (Fin (-3))) (Num 1000);
                mkCall (Num 0) (Num 0) (Num 3) (Num 2000)] empty in
  getVerticalHeatmap d !! 1%nat =
    Some (mkFloorStats 1 (FloorN 1) 1 2 (Num 2000)) /\
  length (List.filter (on_floor 1) (trajectory d)) = 2%nat.
Proof.
  intros d. split; [reflexivity|].
  symmetry.
  apply (getVerticalHeatmap_counts_visits d 1
           (mkFloorStats 1 (FloorN 1) 1 2 (Num 2000)) eq_refl).
Defined.

(** The [duration] of a floor is the sum, taken in trajectory order from
    0, of the seconds from each entry on that floor to the entry after
    it; the last entry of the trajectory adds nothing. *)
Theorem getVerticalHeatmap_duration_sums_gaps
    (d : Data) (k : nat) (s : FloorStats) :
  getVerticalHeatmap d !! k = Some s ->
  fs_duration s = fold_left JS.add (dwell_gaps k (trajectory d)) 0.
Proof.
  intros Hs. apply (getVerticalHeatmap_per_floor d k s Hs).
Qed.

Lemma getVerticalHeatmap_duration_sums_gaps_witness :
  let d := run [mkCall (Num 0) (Num 0) (Num 3) (Num 0);
                mkCall (Num 0) (Num 0) (Num (Fin (-3))) (Num 1500);
                mkCall (Num 0) (Num 0) (Num 3) (Num 2000);
                mkCall (Num 0) (Num 0) (Num (Fin (-3))) (Num 4000)] empty in
  dwell_gaps 1 (trajectory d) = [Fin (3 # 2); Fin 2] /\
  exists s, getVerticalHeatmap d !! 1%nat = Some s /\
            fs_duration s = Fin (7 # 2).
Proof.
  intros d. split; [reflexivity|].
  exists (mkFloorStats 1 (FloorN 1) (Fin (7 # 2)) 2 (Num 2000)).
  split; [reflexivity|].
  etransitivity;
    [exact (getVerticalHeatmap_duration_sums_gaps d 1
              (mkFloorStats 1 (FloorN 1) (Fin (7 # 2)) 2 (Num 2000)) eq_refl)
    | reflexivity].
Defined.

Lemma filter_none {A : Type} (f : A -> bool) (l : list A) :
  Forall (fun a => f a = false) l -> List.filter f l = [].
Proof.
  induction 1 as [|a l Ha _ IH]; [reflexivity|].
  cbn. rewrite Ha. exact IH.
Qed.

Lemma dwell_gaps_short (k : nat) (traj : list Visit) :
  (length traj <= 1)%nat -> dwell_gaps k traj = [].
Proof.
  destruct traj as [|v [|n rest]]; cbn; intros H; try reflexivity. lia.
Qed.

(** With fewer than two trajectory entries no floor has any duration, and
    [getWorkflowAnalysis()] is empty: the floor the session is on is
    never counted. *)
Theorem getWorkflowAnalysis_empty_below_two_entries (d : Data) :
  (length (trajectory d) <= 1)%nat ->
  Forall (fun s => fs_duration s = JS.of_Z 0) (getVerticalHeatmap d) /\
  getWorkflowAnalysis d = [].
Proof.
  intros H.
  assert (H0 : Forall (fun s => fs_duration s = JS.of_Z 0)
                      (getVerticalHeatmap d)).
  { apply Forall_forall. intros s Hs. apply list_elem_of_lookup in Hs.
    destruct Hs as [k Hk].
    destruct (getVerticalHeatmap_per_floor d k s Hk) as (_ & _ & ->).
    rewrite dwell_gaps_short by exact H. reflexivity. }
  split; [exact H0|]. unfold getWorkflowAnalysis.
  rewrite filter_none; [reflexivity|].
  eapply Forall_impl; [exact H0|]. intros s ->. reflexivity.
Qed.

Lemma getWorkflowAnalysis_empty_below_two_entries_witness :
  let d := run [mkCall (Num 0) (Num 0) (Num 3) (Num 0);
                mkCall (Num 0) (Num 0) (Num 0) (Num 60000)] empty in
  length (trajectory d) = 1%nat /\ getWorkflowAnalysis d = [].
Proof.
  cbv zeta. split; [reflexivity|].
  apply getWorkflowAnalysis_empty_below_two_entries. cbn. apply le_n.
Defined.

Lemma dwell_gaps_nonneg (k : nat) (traj : list Visit) :
  timestamps_ascend traj ->
  Forall (fun g => exists q, g = Fin q /\ (0 <= q)%Q) (dwell_gaps k traj).
Proof.
  induction traj as [|v [|n rest] IH]; intros H; [constructor | constructor|].
  destruct H as [(a & b & Ha & Hb & Hab) H].
  change (dwell_gaps k (v :: n :: rest)) with
    ((if on_floor k v then [visit_gap v n] else []) ++ dwell_gaps k (n :: rest)).
  apply Forall_app. split; [|apply IH, H].
  destruct (on_floor k v); [|constructor].
  constructor; [|constructor].
  unfold visit_gap, JS.of_Z. rewrite Ha, Hb. cbn [JS.ToNumber JS.sub].
  rewrite div_Fin by reflexivity. eexists. split; [reflexivity|].
  rewrite !Qred_correct. unfold Qdiv.
  apply Qmult_le_0_compat; [lra | discriminate].
Qed.

Lemma fold_add_nonneg (gs : list JS.num) (acc : Q) :
  (0 <= acc)%Q ->
  Forall (fun g => exists q, g = Fin q /\ (0 <= q)%Q) gs ->
  exists r, fold_left JS.add gs (Fin acc) = Fin r /\ (0 <= r)%Q.
Proof.
  revert acc. induction gs as [|g gs IH]; intros acc Ha Hg.
  - exists acc. split; [reflexivity | exact Ha].
  - inversion Hg as [|? ? (q & -> & Hq) Hgs]; subst. cbn [fold_left JS.add].
    apply IH; [|exact Hgs]. rewrite Qred_correct. lra.
Qed.

(** When the timestamps of the trajectory are finite and do not decrease,
    no floor's duration is negative or [NaN]: [duration >= 0] holds. *)
Theorem getVerticalHeatmap_durations_nonnegative
    (d : Data) (k : nat) (s : FloorStats) :
  timestamps_ascend (trajectory d) ->
  getVerticalHeatmap d !! k = Some s ->
  (fs_duration s >=? 0) = true.
Proof.
  intros Ht Hs.
  destruct (getVerticalHeatmap_per_floor d k s Hs) as (_ & _ & ->).
  destruct (fold_add_nonneg (dwell_gaps k (trajectory d)) 0 (Qle_refl 0)
              (dwell_gaps_nonneg k _ Ht)) as (r & Hr & H0).
  change (JS.of_Z 0) with (Fin 0) at 1. rewrite Hr.
  unfold JS.ge, JS.of_Z. apply le_Fin. exact H0.
Qed.

Lemma getVerticalHeatmap_durations_nonnegative_witness :
  let d := run [mkCall (Num 0) (Num 0) (Num 3) (Num 0);
                mkCall (Num 0) (Num 0) (Num (Fin (-3))) (Num 1500);
                mkCall (Num 0) (Num 0) (Num 3) (Num 1500)] empty in
  timestamps_ascend (trajectory d) /\
  getVerticalHeatmap d !! 0%nat = Some (mkFloorStats 0 CarTop 0 1 (Num 1500)) /\
  (fs_duration (mkFloorStats 0 CarTop 0 1 (Num 1500)) >=? 0) = true.
Proof.
  intros d.
  assert (Ht : timestamps_ascend (trajectory d)).
  { cbn. split; [exists 0%Q, 1500%Q; repeat split; discriminate|].
    split; [exists 1500%Q, 1500%Q; repeat split; discriminate | exact I]. }
  split; [exact Ht|]. split; [reflexivity|].
  apply (getVerticalHeatmap_durations_nonnegative d 0
           (mkFloorStats 0 CarTop 0 1 (Num 1500)) Ht eq_refl).
Defined.

End Dwell.

(** ** What [getWorkflowAnalysis] and [getPath] list *)

Section Listing.

Local Open Scope js_scope.

Lemma sort_insert_length {A : Type} (cmp : A -> A -> JS.num) (x : A)
    (l : list A) :
  length (sort_insert cmp x l) = S (length l).
Proof.
  induction l as [|y l IH]; [reflexivity|].
  cbn [sort_insert]. destruct (cmp x y >? 0); cbn [length]; [rewrite IH|];
    reflexivity.
Qed.

Lemma Array_sort_length {A : Type} (cmp : A -> A -> JS.num) (l : list A) :
  length (Array_sort cmp l) = length l.
Proof.
  induction l as [|y l IH]; [reflexivity|].
  cbn [Array_sort foldr]. fold (Array_sort cmp l).
  rewrite sort_insert_length, IH. reflexivity.
Qed.

Lemma filter_length_bound {A : Type} (f : A -> bool) (l : list A) :
  (length (List.filter f l) <= length l)%nat.
Proof.
  induction l as [|a l IH]; [reflexivity|].
  cbn. destruct (f a); cbn; lia.
Qed.

(** [getWorkflowAnalysis()] lists exactly the entries of
    [getVerticalHeatmap()] whose duration is positive, each once: at most
    13 of them, none with a zero, negative or [NaN] duration. *)
Theorem getWorkflowAnalysis_lists_positive_durations (d : Data) :
  (forall s, s ∈ getWorkflowAnalysis d <->
             s ∈ getVerticalHeatmap d /\ (fs_duration s >? 0) = true) /\
  length (getWorkflowAnalysis d) =
    length (List.filter (fun s => fs_duration s >? 0) (getVerticalHeatmap d)) /\
  (length (getWorkflowAnalysis d) <= 13)%nat.
Proof.
  unfold getWorkflowAnalysis.
  set (kept := List.filter (fun f => fs_duration f >? 0) (getVerticalHeatmap d)).
  split; [|split].
  - intros s. split.
    + intros Hs.
      assert (H : Forall (fun a => a ∈ kept) (Array_sort
                    (fun a b => fs_duration b - fs_duration a) kept)).
      { apply Array_sort_Forall. apply Forall_forall. auto. }
      rewrite Forall_forall in H. specialize (H s Hs).
      apply list_elem_of_In, filter_In in H. destruct H as [H1 H2].
      split; [apply list_elem_of_In; exact H1 | exact H2].
    + intros [H1 H2]. apply Array_sort_elem.
      apply list_elem_of_In, filter_In. split; [|exact H2].
      apply list_elem_of_In. exact H1.
  - apply Array_sort_length.
  - rewrite Array_sort_length.
    pose proof (filter_length_bound (fun f => fs_duration f >? 0)
                  (getVerticalHeatmap d)) as H.
    destruct (getVerticalHeatmap_keys d) as [Hf _].
    assert (Hl : length (getVerticalHeatmap d) = 13%nat).
    { rewrite <- (length_fmap fs_floor), Hf. reflexivity. }
    fold kept in H. lia.
Qed.

Lemma getFloorName_of_floor (k : Z) :
  (0 <= k <= 12)%Z ->
  getFloorName (JS.of_Z k) =
    if (k =? 0)%Z then CarTop else FloorN (JS.of_Z k).
Proof.
  intros Hk.
  assert (k = 0 \/ k = 1 \/ k = 2 \/ k = 3 \/ k = 4 \/ k = 5 \/ k = 6 \/ k = 7 \/
          k = 8 \/ k = 9 \/ k = 10 \/ k = 11 \/ k = 12)%Z as Hk' by lia.
  repeat (destruct Hk' as [->|Hk']; [reflexivity|]). subst k. reflexivity.
Qed.

(** Fed numbers only, every step of [getPath()] is on one of the thirteen
    floors and is named for it: 'Car Top (Machine Room)' for floor 0,
    'Floor k' for floor k, never 'Unknown'. *)
Theorem getPath_names_every_floor (cs : list Call) (step : PathStep) :
  Forall numeric_z cs ->
  step ∈ getPath (run cs empty) ->
  exists k : Z,
    (0 <= k <= 12)%Z /\ ps_floor step = JS.of_Z k /\
    ps_floorName step = (if (k =? 0)%Z then CarTop else FloorN (JS.of_Z k)) /\
    ps_floorName step <> Unknown.
Proof.
  intros Hz Hs. unfold getPath in Hs.
  apply elem_of_lookup_imap_1 in Hs. destruct Hs as (i & v & Hstep & Hv).
  cbv zeta in Hstep. subst step.
  destruct (run_is_floor cs Hz) as [_ Hf]. rewrite Forall_forall in Hf.
  destruct (Hf v) as (k & Hk & Ek).
  { apply list_elem_of_lookup. exists i. exact Hv. }
  exists k. cbn [ps_floor ps_floorName]. rewrite Ek.
  rewrite (getFloorName_of_floor k Hk).
  split; [exact Hk|]. split; [reflexivity|]. split; [reflexivity|].
  destruct (k =? 0)%Z; intros H; discriminate H.
Qed.

Lemma getPath_names_every_floor_witness :
  let cs := [mkCall (Num 0) (Num 0) (Num 3) (Num 1000);
             mkCall (Num 0) (Num 0) (Num (Fin (-3))) (Num 2500)] in
  Forall numeric_z cs /\
  map ps_floorName (getPath (run cs empty)) = [FloorN 1; CarTop] /\
  forall step, step ∈ getPath (run cs empty) -> ps_floorName step <> Unknown.
Proof.
  intros cs.
  assert (Hz : Forall numeric_z cs) by (repeat constructor; discriminate).
  split; [exact Hz|]. split; [reflexivity|].
  intros step Hs.
  destruct (getPath_names_every_floor cs step Hz Hs) as (k & _ & _ & _ & H).
  exact H.
Defined.

End Listing.

(** ** The derived fields of [getFloorHeatmap] *)

Section HeatPoints.

Local Open Scope js_scope.

Local Abbreviation nonneg_or_inf n :=
  (n = PInf \/ exists q : Q, n = Fin q /\ (0 <= q)%Q).

(** An element of the result comes from a matched point, with the three
    derived fields computed against the matched points' [maxAccel]. *)
Lemma getFloorHeatmap_elem (d : Data) (floor : JS.num) (h : HeatPoint) :
  h ∈ getFloorHeatmap d floor ->
  let matched :=
    List.filter (fun p => detectFloor d (Num (p_z p)) === floor) (points d) in
  let maxAccel :=
    JS.Math_max_spread
      (map (fun p => JS.Math_max (JS.Math_abs (p_x p)) (JS.Math_abs (p_y p)))
           matched) in
  hp_point h ∈ matched /\
  hp_normalizedX h =
    (p_x (hp_point h) / maxAccel) * (CAR_WIDTH / 2) + (CAR_WIDTH / 2) /\
  hp_normalizedY h =
    (p_y (hp_point h) / maxAccel) * (CAR_DEPTH / 2) + (CAR_DEPTH / 2) /\
  hp_intensity h = JS.Math_min (p_magnitude (hp_point h) / 2) 1.
Proof.
  unfold getFloorHeatmap. cbv zeta.
  destruct (List.filter _ (points d)) as [|p0 ps] eqn:Em.
  - intros H. inversion H.
  - cbn [length Nat.eqb]. intros H.
    apply list_elem_of_In, in_map_iff in H. destruct H as (p & <- & Hp).
    cbn [hp_point hp_normalizedX hp_normalizedY hp_intensity].
    split; [apply list_elem_of_In; exact Hp|]. auto.
Qed.

Lemma square_nonneg (n : JS.num) : n <> NaN -> nonneg_or_inf (n * n).
Proof.
  destruct n as [| | |q]; intros H; [congruence | left | left | right];
    try reflexivity.
  eexists. split; [reflexivity|]. rewrite Qred_correct.
  destruct (Qlt_le_dec q 0) as [Hn|Hp].
  - assert (q * q == (- q) * (- q))%Q as -> by ring.
    apply Qmult_le_0_compat; lra.
  - apply Qmult_le_0_compat; exact Hp.
Qed.

Lemma add_nonneg (a b : JS.num) :
  nonneg_or_inf a -> nonneg_or_inf b -> nonneg_or_inf (a + b).
Proof.
  intros [->|(p & -> & Hp)] [->|(q & -> & Hq)]; try (left; reflexivity).
  right. eexists. split; [reflexivity|]. rewrite Qred_correct. lra.
Qed.

Lemma Qsqrt_nonneg (q : Q) : (0 <= JS.Qsqrt q)%Q.
Proof.
  unfold JS.Qsqrt. rewrite Qred_correct. unfold Qle. cbn [Qnum Qden].
  rewrite Z.mul_1_r. cbn. apply Z.sqrt_nonneg.
Qed.

Lemma sqrt_nonneg (a : JS.num) : nonneg_or_inf a -> nonneg_or_inf (JS.Math_sqrt a).
Proof.
  intros [->|(q & -> & Hq)]; [left; reflexivity|]. right.
  cbn [JS.Math_sqrt]. unfold JS.sgn.
  destruct (Qcompare_spec 0 q) as [E|L|G]; [| |lra];
    (eexists; split; [reflexivity | apply Qsqrt_nonneg]).
Qed.

Lemma run_magnitude_nonneg (cs : list Call) :
  Forall numeric_xyz cs ->
  Forall (fun p => nonneg_or_inf (p_magnitude p)) (points (run cs empty)).
Proof.
  induction cs as [|c cs IH] using rev_ind; intros Hc; [constructor|].
  apply Forall_app in Hc. destruct Hc as [Hcs Hc].
  inversion Hc as [|? ? (Hx & Hy & Hz) _]; subst.
  rewrite run_snoc. destruct (feed_cases (run cs empty) c) as [-> _].
  apply Forall_app. split; [apply IH, Hcs|].
  constructor; [|constructor]. cbn [addPoint snd p_magnitude].
  apply sqrt_nonneg. repeat apply add_nonneg; apply square_nonneg; assumption.
Qed.

Lemma intensity_in_range (m : JS.num) :
  nonneg_or_inf m ->
  (0 <=? JS.Math_min (m / 2) 1) = true /\ (JS.Math_min (m / 2) 1 <=? 1) = true.
Proof.
  intros [->|(q & -> & Hq)]; [split; reflexivity|].
  unfold JS.of_Z. rewrite div_Fin by reflexivity. unfold JS.Math_min.
  destruct (Fin (inject_Z 1) <? Fin (Qred (q / inject_Z 2))) eqn:E.
  - split; reflexivity.
  - apply lt_Fin_false in E. rewrite Qred_correct in E.
    split; apply le_Fin; rewrite Qred_correct; [|exact E].
    unfold Qdiv. apply Qmult_le_0_compat; [exact Hq | discriminate].
Qed.

(** Fed numbers only, the intensity of every point of a floor heat map is
    between 0 and 1. *)
Theorem getFloorHeatmap_intensity_in_unit_range
    (cs : list Call) (floor : JS.num) (h : HeatPoint) :
  Forall numeric_xyz cs ->
  h ∈ getFloorHeatmap (run cs empty) floor ->
  (0 <=? hp_intensity h) = true /\ (hp_intensity h <=? 1) = true.
Proof.
  intros Hc Hh.
  destruct (getFloorHeatmap_elem _ _ _ Hh) as (Hp & _ & _ & ->).
  apply intensity_in_range.
  pose proof (run_magnitude_nonneg cs Hc) as Hm. rewrite Forall_forall in Hm.
  apply Hm. apply list_elem_of_In, filter_In in Hp.
  apply list_elem_of_In, Hp.
Qed.

Lemma getFloorHeatmap_intensity_in_unit_range_witness :
  let cs := [mkCall (Num 3) (Num 4) (Num 0) (Num 1000);
             mkCall (Num (Fin (1 # 2))) (Num 0) (Num 0) (Num 2000)] in
  Forall numeric_xyz cs /\
  map hp_intensity (getFloorHeatmap (run cs empty) 0) = [Fin 1; Fin (1 # 4)] /\
  forall h, h ∈ getFloorHeatmap (run cs empty) 0 ->
            (hp_intensity h <=? 1) = true.
Proof.
  intros cs.
  assert (Hc : Forall numeric_xyz cs).
  { repeat constructor; discriminate. }
  split; [exact Hc|]. split; [reflexivity|].
  intros h Hh.
  apply (getFloorHeatmap_intensity_in_unit_range cs 0 h Hc Hh).
Defined.

End HeatPoints.

(** ** Positions inside the car *)

Section Positions.

Local Open Scope js_scope.

Lemma max_Fin (p q : Q) :
  exists m, JS.Math_max (Fin p) (Fin q) = Fin m /\ (p <= m)%Q /\ (q <= m)%Q.
Proof.
  unfold JS.Math_max. destruct (Fin p <? Fin q) eqn:E.
  - apply lt_Fin in E. exists q. split; [reflexivity|]. lra.
  - apply lt_Fin_false in E. exists p. split; [reflexivity|]. lra.
Qed.

Lemma max_spread_Fin (xs : list JS.num) (c : Q) :
  Forall (fun a => exists q, a = Fin q) xs ->
  exists m,
    fold_left JS.Math_max xs (Fin c) = Fin m /\ (c <= m)%Q /\
    Forall (fun a => exists q, a = Fin q /\ (q <= m)%Q) xs.
Proof.
  revert c. induction xs as [|a xs IH]; intros c Hx.
  - exists c. split; [reflexivity|]. split; [lra | constructor].
  - inversion Hx as [|? ? (q & ->) Hxs]; subst. cbn [fold_left].
    destruct (max_Fin c q) as (m0 & -> & Hc & Hq).
    destruct (IH m0 Hxs) as (m & -> & Hm & Hall).
    exists m. split; [reflexivity|]. split; [lra|].
    constructor; [exists q; split; [reflexivity | lra] | exact Hall].
Qed.

(** The acceleration scale of one point: finite, and at least [|x|] and
    [|y|]. *)
Lemma accel_Fin (qx qy : Q) :
  exists a,
    JS.Math_max (JS.Math_abs (Fin qx)) (JS.Math_abs (Fin qy)) = Fin a /\
    (Qabs qx <= a)%Q /\ (Qabs qy <= a)%Q.
Proof.
  cbn [JS.Math_abs].
  destruct (max_Fin (Qred (Qabs qx)) (Qred (Qabs qy))) as (a & -> & H1 & H2).
  rewrite Qred_correct in H1, H2. exists a. auto.
Qed.

Lemma normalized_in_car (q m : Q) :
  (0 < m)%Q -> (Qabs q <= m)%Q ->
  (0 <=? (Fin q / Fin m) * (CAR_WIDTH / 2) + (CAR_WIDTH / 2)) = true /\
  ((Fin q / Fin m) * (CAR_WIDTH / 2) + (CAR_WIDTH / 2) <=? CAR_WIDTH) = true.
Proof.
  intros Hm Hq.
  change (CAR_WIDTH / 2) with (Fin (3 # 4)). unfold CAR_WIDTH.
  rewrite div_Fin.
  2:{ unfold JS.is_zero. destruct (Qeq_bool m 0) eqn:E; [|reflexivity].
      apply Qeq_bool_iff in E. lra. }
  cbn [JS.mul JS.add]. unfold JS.of_Z.
  apply Qabs_Qle_condition in Hq. destruct Hq as [Hlo Hhi].
  assert (H1 : (- (1) <= q / m)%Q).
  { apply Qle_shift_div_l; [exact Hm | lra]. }
  assert (H2 : (q / m <= 1)%Q).
  { apply Qle_shift_div_r; [exact Hm | lra]. }
  split; apply le_Fin; rewrite !Qred_correct; unfold inject_Z; lra.
Qed.

(** When the matched points have finite [x] and [y] and one of them is
    not at rest sideways, every returned position lies inside the car:
    [normalizedX] and [normalizedY] are between 0 and 1.5. *)
Theorem getFloorHeatmap_positions_inside_car
    (d : Data) (floor : JS.num) (h : HeatPoint) :
  (forall p, p ∈ points d ->
             (detectFloor d (Num (p_z p)) === floor) = true ->
             exists qx qy, p_x p = Fin qx /\ p_y p = Fin qy) ->
  (exists p, p ∈ points d /\
             (detectFloor d (Num (p_z p)) === floor) = true /\
             ((p_x p === 0) = false \/ (p_y p === 0) = false)) ->
  h ∈ getFloorHeatmap d floor ->
  (0 <=? hp_normalizedX h) = true /\ (hp_normalizedX h <=? CAR_WIDTH) = true /\
  (0 <=? hp_normalizedY h) = true /\ (hp_normalizedY h <=? CAR_DEPTH) = true.
Proof.
  intros Hfin (p1 & Hp1 & Hm1 & Hmove) Hh.
  destruct (getFloorHeatmap_elem _ _ _ Hh) as (Hp & -> & -> & _).
  set (matched := List.filter _ (points d)) in *.
  assert (Hmatched : forall p, p ∈ matched ->
            exists qx qy, p_x p = Fin qx /\ p_y p = Fin qy).
  { intros p Hin. apply list_elem_of_In, filter_In in Hin.
    destruct Hin as [Hin E]. apply Hfin; [apply list_elem_of_In, Hin | exact E]. }
  assert (Hp1m : p1 ∈ matched).
  { apply list_elem_of_In, filter_In. split; [|exact Hm1].
    apply list_elem_of_In, Hp1. }
  set (accel := fun p => JS.Math_max (JS.Math_abs (p_x p)) (JS.Math_abs (p_y p))).
  assert (Hacc : Forall (fun a => exists q, a = Fin q) (map accel matched)).
  { apply Forall_forall. intros a Ha. apply list_elem_of_In, in_map_iff in Ha.
    destruct Ha as (p & <- & Hin). apply list_elem_of_In in Hin.
    destruct (Hmatched p Hin) as (qx & qy & Ex & Ey). unfold accel.
    rewrite Ex, Ey. destruct (accel_Fin qx qy) as (a & -> & _). eauto. }
  assert (Hmax : exists m,
            JS.Math_max_spread (map accel matched) = Fin m /\
            Forall (fun a => exists q, a = Fin q /\ (q <= m)%Q)
                   (map accel matched)).
  { unfold JS.Math_max_spread.
    destruct matched as [|p0 ps] eqn:Em; [inversion Hp1m|].
    cbn [map fold_left]. inversion Hacc as [|? ? (q0 & E0) Hrest]; subst.
    rewrite E0. change (JS.Math_max NInf (Fin q0)) with (Fin q0).
    destruct (max_spread_Fin _ q0 Hrest) as (m & -> & Hq0 & Hall).
    exists m. split; [reflexivity|].
    constructor; [exists q0; split; [reflexivity | exact Hq0] | exact Hall]. }
  destruct Hmax as (m & Hmax & Hall). rewrite Forall_forall in Hall.
  assert (Hbound : forall p, p ∈ matched ->
            exists qx qy, p_x p = Fin qx /\ p_y p = Fin qy /\
                          (Qabs qx <= m)%Q /\ (Qabs qy <= m)%Q).
  { intros p Hin. destruct (Hmatched p Hin) as (qx & qy & Ex & Ey).
    exists qx, qy. split; [exact Ex|]. split; [exact Ey|].
    destruct (Hall (accel p)) as (a & Ea & Ham).
    { apply list_elem_of_In, in_map. apply list_elem_of_In, Hin. }
    unfold accel in Ea. rewrite Ex, Ey in Ea.
    destruct (accel_Fin qx qy) as (a' & Ea' & H1 & H2).
    rewrite Ea' in Ea. injection Ea as ->. split; lra. }
  assert (Hpos : (0 < m)%Q).
  { destruct (Hbound p1 Hp1m) as (qx & qy & Ex & Ey & H1 & H2).
    rewrite Ex, Ey in Hmove. unfold JS.of_Z in Hmove.
    cbn [JS.strict_eq] in Hmove.
    destruct Hmove as [E|E];
      [assert (Hne : ~ qx == 0) | assert (Hne : ~ qy == 0)];
      try (intros E0; apply Qeq_bool_iff in E0; unfold inject_Z in E;
           congruence).
    - apply Qabs_Qle_condition in H1.
      destruct (Qlt_le_dec 0 m) as [|Hle]; [assumption|].
      exfalso. apply Hne. lra.
    - apply Qabs_Qle_condition in H2.
      destruct (Qlt_le_dec 0 m) as [|Hle]; [assumption|].
      exfalso. apply Hne. lra. }
  fold accel. rewrite Hmax.
  destruct (Hbound _ Hp) as (qx & qy & -> & -> & H1 & H2).
  destruct (normalized_in_car qx m Hpos H1) as [Hx1 Hx2].
  destruct (normalized_in_car qy m Hpos H2) as [Hy1 Hy2].
  auto.
Qed.

Lemma getFloorHeatmap_positions_inside_car_witness :
  let d := run [mkCall (Num 1) (Num (Fin (-2))) (Num 0) (Num 1000);
                mkCall (Num 0) (Num 1) (Num 0) (Num 2000)] empty in
  map (fun h => (hp_normalizedX h, hp_normalizedY h)) (getFloorHeatmap d 0) =
    [(Fin (9 # 8), Fin 0); (Fin (3 # 4), Fin (9 # 8))] /\
  forall h, h ∈ getFloorHeatmap d 0 ->
            (hp_normalizedX h <=? CAR_WIDTH) = true.
Proof.
  intros d. split; [reflexivity|]. intros h Hh.
  apply (getFloorHeatmap_positions_inside_car d 0 h); [| |exact Hh].
  - intros p Hp _. cbn in Hp.
    apply elem_of_cons in Hp. destruct Hp as [->|Hp]; [eauto|].
    apply elem_of_cons in Hp. destruct Hp as [->|Hp]; [eauto|].
    inversion Hp.
  - eexists. split; [left|]. split; [reflexivity|]. left. reflexivity.
Defined.

End Positions.

(** ** The floor heat maps together *)

Section Partition.

Local Open Scope js_scope.

Lemma run_points_z_not_nan (cs : list Call) :
  Forall (fun p => p_z p <> NaN) (points (run cs empty)).
Proof.
  induction cs as [|c cs IH] using rev_ind; [constructor|].
  rewrite run_snoc. destruct (feed_cases (run cs empty) c) as [-> _].
  apply Forall_app. split; [exact IH|].
  constructor; [|constructor]. cbn [addPoint snd p_z]. apply or_zero_not_nan.
Qed.

Lemma one_floor_each {A : Type} (g : A -> JS.num) (ps : list A) :
  Forall (fun p => is_floor (g p)) ps ->
  sum_list
    (map (fun k => length (List.filter (fun p => g p === JS.of_Z k) ps))
         [0; 1; 2; 3; 4; 5; 6; 7; 8; 9; 10; 11; 12]%Z) = length ps.
Proof.
  induction 1 as [|p ps (j & Hj & Ej) _ IH]; [reflexivity|].
  cbn [map sum_list List.filter length] in *. rewrite Ej, !strict_eq_of_Z.
  assert (j = 0 \/ j = 1 \/ j = 2 \/ j = 3 \/ j = 4 \/ j = 5 \/ j = 6 \/ j = 7 \/
          j = 8 \/ j = 9 \/ j = 10 \/ j = 11 \/ j = 12)%Z as Hj' by lia.
  unfold id in *.
  repeat (destruct Hj' as [->|Hj']; [cbn [Z.eqb Pos.eqb length]; lia|]).
  subst j. cbn [Z.eqb Pos.eqb length]. lia.
Qed.

(** Fed numbers only, the heat maps of the floors 0 to 12 together hold
    every recorded point exactly once: each point is classified, against
    the present current floor, on one and only one floor. *)
Theorem floor_heatmaps_partition_points (cs : list Call) :
  Forall numeric_z cs ->
  sum_list
    (map (fun k => length (getFloorHeatmap (run cs empty) (JS.of_Z k)))
         [0; 1; 2; 3; 4; 5; 6; 7; 8; 9; 10; 11; 12]%Z)
  = length (points (run cs empty)).
Proof.
  intros Hz. destruct (run_is_floor cs Hz) as [Hc _].
  pose proof (run_points_z_not_nan cs) as Hp.
  rewrite <- (one_floor_each
                (fun p => detectFloor (run cs empty) (Num (p_z p)))
                (points (run cs empty))).
  - f_equal. apply map_ext. intros k.
    rewrite <- (length_map hp_point), getFloorHeatmap_points. reflexivity.
  - eapply Forall_impl; [exact Hp|]. intros p Hn.
    apply detectFloor_is_floor; assumption.
Qed.

Lemma floor_heatmaps_partition_points_witness :
  let cs := [mkCall (Num 0) (Num 0) (Num 0) (Num 1000);
             mkCall (Num 0) (Num 0) (Num 3) (Num 2000);
             mkCall (Num 1) (Num 0) (Num (Fin (-9))) (Num 3000)] in
  Forall numeric_z cs /\
  map (fun k => length (getFloorHeatmap (run cs empty) (JS.of_Z k)))
      [0; 1; 2; 3; 4; 5; 6; 7; 8; 9; 10; 11; 12]%Z
    = [2; 1; 0; 0; 0; 0; 0; 0; 0; 0; 0; 0; 0]%nat /\
  sum_list
    (map (fun k => length (getFloorHeatmap (run cs empty) (JS.of_Z k)))
         [0; 1; 2; 3; 4; 5; 6; 7; 8; 9; 10; 11; 12]%Z) = 3%nat.
Proof.
  intros cs.
  assert (Hz : Forall numeric_z cs) by (repeat constructor; discriminate).
  split; [exact Hz|]. split; [reflexivity|].
  rewrite (floor_heatmaps_partition_points cs Hz). reflexivity.
Defined.

End Partition.

(** ** Consistency between the views *)

Section AcrossViews.

Local Open Scope js_scope.

Lemma on_floor_sum (traj : list Visit) :
  Forall (fun v => is_floor (v_floor v)) traj ->
  sum_list (map (fun k => length (List.filter (on_floor k) traj)) (seq 0 13))
  = length traj.
Proof.
  intros H. rewrite <- (one_floor_each v_floor traj H). reflexivity.
Qed.

(** Fed numbers only, the visit counts of the thirteen floors add up to
    the number of trajectory entries, which is [totalFloors]. *)
Theorem getVerticalHeatmap_visits_add_up (cs : list Call) :
  Forall numeric_z cs ->
  sum_list (map fs_visits (getVerticalHeatmap (run cs empty))) =
    totalFloors (getSummary (run cs empty)).
Proof.
  intros Hz. destruct (run_is_floor cs Hz) as [_ Hf].
  cbn [getSummary totalFloors]. rewrite <- (on_floor_sum _ Hf).
  set (d := run cs empty).
  pose proof (getVerticalHeatmap_per_floor d) as Hper.
  destruct (getVerticalHeatmap_keys d) as [Hk _].
  assert (Hl : length (getVerticalHeatmap d) = 13%nat).
  { rewrite <- (length_fmap fs_floor), Hk. reflexivity. }
  destruct (getVerticalHeatmap d) as [|s0 l]; [discriminate|].
  do 12 (destruct l as [|? l]; [discriminate|]).
  destruct l; [|discriminate].
  cbn [map seq sum_list].
  rewrite (proj1 (Hper 0%nat _ eq_refl)), (proj1 (Hper 1%nat _ eq_refl)),
    (proj1 (Hper 2%nat _ eq_refl)), (proj1 (Hper 3%nat _ eq_refl)),
    (proj1 (Hper 4%nat _ eq_refl)), (proj1 (Hper 5%nat _ eq_refl)),
    (proj1 (Hper 6%nat _ eq_refl)), (proj1 (Hper 7%nat _ eq_refl)),
    (proj1 (Hper 8%nat _ eq_refl)), (proj1 (Hper 9%nat _ eq_refl)),
    (proj1 (Hper 10%nat _ eq_refl)), (proj1 (Hper 11%nat _ eq_refl)),
    (proj1 (Hper 12%nat _ eq_refl)).
  reflexivity.
Qed.

Lemma getVerticalHeatmap_visits_add_up_witness :
  let cs := [mkCall (Num 0) (Num 0) (Num 3) (Num 0);
             mkCall (Num 0) (Num 0) (Num (Fin (-3))) (Num 1000);
             mkCall (Num 0) (Num 0) (Num 3) (Num 2000)] in
  Forall numeric_z cs /\
  map fs_visits (firstn 3 (getVerticalHeatmap (run cs empty))) = [1; 2; 0]%nat /\
  sum_list (map fs_visits (getVerticalHeatmap (run cs empty))) = 3%nat.
Proof.
  intros cs.
  assert (Hz : Forall numeric_z cs) by (repeat constructor; discriminate).
  split; [exact Hz|]. split; [reflexivity|].
  rewrite (getVerticalHeatmap_visits_add_up cs Hz). reflexivity.
Defined.

Lemma timestamps_ascend_lookup (traj : list Visit) (i : nat) (v next : Visit) :
  timestamps_ascend traj ->
  traj !! i = Some v -> traj !! (i + 1)%nat = Some next ->
  exists a b : Q,
    v_timestamp v = Num (Fin a) /\ v_timestamp next = Num (Fin b) /\ (a <= b)%Q.
Proof.
  revert i. induction traj as [|w [|w' rest] IH]; intros i Ht Hv Hn.
  - discriminate.
  - destruct i; discriminate.
  - destruct Ht as [Hw Ht]. destruct i as [|i].
    + cbn in Hv, Hn. injection Hv as <-. injection Hn as <-. exact Hw.
    + apply (IH i); assumption.
Qed.

Lemma Math_round_of_Z (n : Z) : JS.Math_round (JS.of_Z n) = JS.of_Z n.
Proof.
  unfold JS.of_Z. cbn [JS.Math_round]. unfold JS.of_Z. do 2 f_equal.
  assert (Hlo : (n <= Qfloor (inject_Z n + (1 # 2)))%Z).
  { rewrite <- (Qfloor_Z n) at 1. apply Qfloor_resp_le. lra. }
  assert (Hhi : (Qfloor (inject_Z n + (1 # 2)) < n + 1)%Z).
  { rewrite Zlt_Qlt. eapply Qle_lt_trans; [apply Qfloor_le|].
    rewrite inject_Z_plus. unfold inject_Z at 3. lra. }
  lia.
Qed.

Lemma getPath_duration_of_step (d : Data) (step : PathStep) :
  timestamps_ascend (trajectory d) ->
  step ∈ getPath d ->
  exists n : Z, (0 <= n)%Z /\ ps_duration step = JS.of_Z n.
Proof.
  intros Ht Hs. unfold getPath in Hs.
  apply elem_of_lookup_imap_1 in Hs. destruct Hs as (i & v & Hstep & Hv).
  cbv zeta in Hstep. subst step. cbn [ps_duration].
  destruct (trajectory d !! (i + 1)%nat) as [next|] eqn:Hn.
  - destruct (timestamps_ascend_lookup _ i v next Ht Hv Hn)
      as (a & b & -> & -> & Hab).
    cbn [JS.ToNumber JS.sub]. unfold JS.of_Z at 1.
    rewrite div_Fin by reflexivity. cbn [JS.Math_round].
    eexists. split; [|reflexivity].
    apply (Z.le_trans _ (Qfloor 0)); [reflexivity|]. apply Qfloor_resp_le.
    rewrite !Qred_correct.
    assert (0 <= (b - a) / inject_Z 1000)%Q; [|lra].
    unfold Qdiv. apply Qmult_le_0_compat; [lra | discriminate].
  - exists 0%Z. split; [lia | reflexivity].
Qed.

(** When the timestamps of the trajectory are finite and do not decrease,
    no duration [getPath()] reports is negative, [NaN] or fractional:
    [duration >= 0] holds and [Math.round] leaves the duration as it
    is. *)
Theorem getPath_durations_rounded_nonnegative (d : Data) (step : PathStep) :
  timestamps_ascend (trajectory d) ->
  step ∈ getPath d ->
  (ps_duration step >=? 0) = true /\
  JS.Math_round (ps_duration step) = ps_duration step.
Proof.
  intros Ht Hs.
  destruct (getPath_duration_of_step d step Ht Hs) as (n & Hn & ->).
  split.
  - unfold JS.ge. rewrite le_of_Z. apply Z.leb_le. exact Hn.
  - apply Math_round_of_Z.
Qed.

Lemma getPath_durations_rounded_nonnegative_witness :
  let d := run [mkCall (Num 0) (Num 0) (Num 3) (Num 1000);
                mkCall (Num 0) (Num 0) (Num (Fin (-3))) (Num 2500)] empty in
  timestamps_ascend (trajectory d) /\
  map ps_duration (getPath d) = [Fin 2; Fin 0] /\
  forall step, step ∈ getPath d ->
               (ps_duration step >=? 0) = true /\
               JS.Math_round (ps_duration step) = ps_duration step.
Proof.
  intros d.
  assert (Ht : timestamps_ascend (trajectory d)).
  { cbn. split; [exists 1000%Q, 2500%Q; repeat split; discriminate | exact I]. }
  split; [exact Ht|]. split; [reflexivity|].
  intros step Hs. apply (getPath_durations_rounded_nonnegative d step Ht Hs).
Defined.

End AcrossViews.

(** ** One sample can span the shaft *)

Section Span.

Local Open Scope js_scope.

Lemma floor_steps_span (q : Q) : (69 <= Qabs q)%Q -> (12 <= floor_steps q)%Z.
Proof.
  intros H. unfold floor_steps.
  apply (Z.le_trans _ (Qfloor 12)); [reflexivity|]. apply Qfloor_resp_le.
  unfold Qdiv.
  assert (Qabs q * 500 * / 1000 * / 3 == Qabs q * (1 # 6))%Q as -> by field.
  lra.
Qed.

(** Nothing caps the floors one sample moves but the clamp: from any of
    the thirteen floors a single [z] of 69 m/s² or more gives floor 12
    and a single [z] of -69 m/s² or less gives floor 0. *)
Theorem detectFloor_one_sample_spans_shaft (d : Data) (q : Q) :
  is_floor (currentFloor d) -> (69 <= Qabs q)%Q ->
  detectFloor d (Num (Fin q)) =
    if Qlt_le_dec 0 q then JS.of_Z 12 else JS.of_Z 0.
Proof.
  intros (k & Hk & E) Hq. pose proof (floor_steps_span q Hq) as Hs.
  assert (Hge : (1 # 2 <= Qabs q)%Q) by lra.
  destruct (Qlt_le_dec 0 q) as [Hpos|Hneg].
  - rewrite (detectFloor_up d k q E Hge Hpos). f_equal. lia.
  - rewrite (detectFloor_down d k q E Hge Hneg). f_equal. lia.
Qed.

Lemma detectFloor_one_sample_spans_shaft_witness :
  is_floor (currentFloor empty) /\ (69 <= Qabs 69)%Q /\
  detectFloor empty (Num (Fin 69)) = JS.of_Z 12.
Proof.
  assert (Hf : is_floor (currentFloor empty)).
  { exists 0%Z. split; [lia | reflexivity]. }
  assert (Hq : (69 <= Qabs 69)%Q) by discriminate.
  split; [exact Hf|]. split; [exact Hq|].
  rewrite (detectFloor_one_sample_spans_shaft empty 69 Hf Hq). reflexivity.
Defined.

End Span.
